(** * Upload handlers of the Tubely file server

    A shallow embedding of [handler_upload_video.go]: the media prober
    [getVideoAspectRatio], the transcoder wrapper [processVideoForFastStart],
    the extension table [getFileExtension] and the HTTP handlers
    [handlerUploadVideo] and [handlerUploadThumbnail] in each of the listings
    the file holds, followed by the properties proved about them.

    Go values are modelled as follows: [int] and [float64] as [Z] and IEEE
    binary64 ([SpecFloat] with precision 53), strings as [string], byte
    slices as [list byte], an [error] as [option error] ([None] is [nil]),
    the file system and the record store as finite maps, and a handler as a
    state-passing computation with early return, panics and a stack of
    deferred calls. *)

From Stdlib Require Import ZArith Lia Bool String Ascii List.
From Stdlib.Strings Require Import Byte.
From Stdlib Require Import Floats.SpecFloat.
From stdpp Require Import base gmap strings list.

Open Scope Z_scope.

(** ** IEEE binary64, the Go type [float64] *)

Module Float64.
Definition prec : Z := 53.
Definition emax : Z := 1024.
Definition float64 := spec_float.

(** The conversion [float64(n)] of an integer: round to nearest, ties to even. *)
Definition of_int (n : Z) : float64 := binary_normalize prec emax n 0 false.
Definition div (x y : float64) : float64 := SFdiv prec emax x y.
Definition ltb (x y : float64) : bool := SFltb x y.
Definition eqb (x y : float64) : bool := SFeqb x y.

Definition zero : float64 := S754_zero false.
(** The constants [1.7], [1.8], [0.55] and [0.57] as the compiler rounds them:
    [0x1.b333333333333p+0], [0x1.ccccccccccccdp+0], [0x1.199999999999ap-1]
    and [0x1.23d70a3d70a3dp-1]. *)
Definition c1_7 : float64 := S754_finite false 7656119366529843 (-52).
Definition c1_8 : float64 := S754_finite false 8106479329266893 (-52).
Definition c0_55 : float64 := S754_finite false 4953959590107546 (-53).
Definition c0_57 : float64 := S754_finite false 5134103575202365 (-53).
End Float64.

(** ** Go values *)

(** An [error] value carries its message; [nil] is [None]. *)
Definition error := string.
Definition bytes := list byte.
(** A [uuid.UUID], by its canonical text. *)
Definition UUID := string.

(** [strings.Contains s substr]. *)
Fixpoint strings_Contains (s substr : string) : bool :=
  String.prefix substr s ||
  match s with
  | EmptyString => false
  | String _ rest => strings_Contains rest substr
  end.

(** ** [encoding/base64]: [RawURLEncoding.EncodeToString] *)

Module base64.
Definition encodeURL : string :=
  "ABCDEFGHIJKLMNOPQRSTUVWXYZabcdefghijklmnopqrstuvwxyz0123456789-_".

Definition encode (i : N) : ascii :=
  match String.get (N.to_nat i) encodeURL with
  | Some c => c
  | None => "A"%char
  end.

(** Three input bytes give four characters; a tail of one or two bytes
    gives two or three, and no padding is written. *)
Fixpoint EncodeToString (src : bytes) : string :=
  match src with
  | [] => EmptyString
  | [b0] =>
      let val := N.shiftl (Byte.to_N b0) 16 in
      String (encode (N.land (N.shiftr val 18) 63))
      (String (encode (N.land (N.shiftr val 12) 63)) EmptyString)
  | [b0; b1] =>
      let val := N.lor (N.shiftl (Byte.to_N b0) 16) (N.shiftl (Byte.to_N b1) 8) in
      String (encode (N.land (N.shiftr val 18) 63))
      (String (encode (N.land (N.shiftr val 12) 63))
      (String (encode (N.land (N.shiftr val 6) 63)) EmptyString))
  | b0 :: b1 :: b2 :: rest =>
      let val := N.lor (N.lor (N.shiftl (Byte.to_N b0) 16)
                              (N.shiftl (Byte.to_N b1) 8)) (Byte.to_N b2) in
      String (encode (N.land (N.shiftr val 18) 63))
      (String (encode (N.land (N.shiftr val 12) 63))
      (String (encode (N.land (N.shiftr val 6) 63))
      (String (encode (N.land val 63)) (EncodeToString rest))))
  end.
End base64.

(** ** [mime.ParseMediaType]

    The function belongs to the Go standard library.  The handlers take it
    from their environment; this model of it, for ASCII input, is used where
    a run is evaluated on a concrete header.  It returns the media type
    and the error, and drops the parameter map, which no handler reads. *)

Module mime.
Definition isSpace (c : ascii) : bool :=
  let n := nat_of_ascii c in
  ((9 <=? n) && (n <=? 13))%nat || (n =? 32)%nat.

Definition toLowerChar (c : ascii) : ascii :=
  let n := nat_of_ascii c in
  if ((65 <=? n) && (n <=? 90))%nat then ascii_of_nat (n + 32) else c.

Fixpoint ToLower (s : string) : string :=
  match s with
  | EmptyString => EmptyString
  | String c r => String (toLowerChar c) (ToLower r)
  end.

Fixpoint TrimLeft (s : string) : string :=
  match s with
  | String c r => if isSpace c then TrimLeft r else s
  | EmptyString => EmptyString
  end.

Fixpoint rev_string (s acc : string) : string :=
  match s with
  | EmptyString => acc
  | String c r => rev_string r (String c acc)
  end.

Definition TrimSpace (s : string) : string :=
  rev_string (TrimLeft (rev_string (TrimLeft s) EmptyString)) EmptyString.

Definition dquote : ascii := ascii_of_nat 34.
Definition backslash : ascii := ascii_of_nat 92.

(** The special characters of RFC 2045: parentheses, angle and square
    brackets, at sign, comma, semicolon, colon, backslash, double quote,
    slash, question mark and equals sign. *)
Definition isTSpecial (c : ascii) : bool :=
  strings_Contains
    ("()<>@,;:" +:+ String backslash (String dquote "/[]?="))
    (String c EmptyString).

Definition isTokenChar (c : ascii) : bool :=
  let n := nat_of_ascii c in
  ((32 <? n) && (n <? 127))%nat && negb (isTSpecial c).

(** [consumeToken v]: the longest prefix of token characters, and the rest. *)
Fixpoint consumeToken (v : string) : string * string :=
  match v with
  | String c r =>
      if isTokenChar c
      then let '(tok, rest) := consumeToken r in (String c tok, rest)
      else (EmptyString, v)
  | EmptyString => (EmptyString, EmptyString)
  end.

Definition checkMediaTypeDisposition (s : string) : option error :=
  let '(typ, rest) := consumeToken s in
  if decide (typ = EmptyString) then Some "mime: no media type"
  else if decide (rest = EmptyString) then None
  else match rest with
       | String "/" rest1 =>
           let '(subtype, rest2) := consumeToken rest1 in
           if decide (subtype = EmptyString) then Some "mime: expected token after slash"
           else if decide (rest2 = EmptyString) then None
           else Some "mime: unexpected content after media subtype"
       | _ => Some "mime: expected slash after first token"
       end.

(** [strings.Cut v ";"]: the text before the first semicolon, and the
    remainder from that semicolon on. *)
Fixpoint cutSemicolon (v : string) : string * string :=
  match v with
  | String c r =>
      if Ascii.eqb c ";" then (EmptyString, v)
      else let '(base, rest) := cutSemicolon r in (String c base, rest)
  | EmptyString => (EmptyString, EmptyString)
  end.

(** The body of a quoted string, after its opening quote; [None] when the
    closing quote is missing or a line break is met. *)
Fixpoint consumeQuoted (v : string) : option (string * string) :=
  match v with
  | EmptyString => None
  | String c r =>
      if Ascii.eqb c dquote then Some (EmptyString, r)
      else if Ascii.eqb c backslash then
        match r with
        | String d r' =>
            if isTSpecial d
            then '(val, rest) ← consumeQuoted r'; Some (String d val, rest)
            else '(val, rest) ← consumeQuoted r; Some (String c val, rest)
        | EmptyString => None
        end
      else if (nat_of_ascii c =? 13)%nat || (nat_of_ascii c =? 10)%nat then None
      else '(val, rest) ← consumeQuoted r; Some (String c val, rest)
  end.

Definition consumeValue (v : string) : string * string :=
  match v with
  | EmptyString => (EmptyString, EmptyString)
  | String c r =>
      if Ascii.eqb c dquote then
        match consumeQuoted r with
        | Some res => res
        | None => (EmptyString, v)
        end
      else consumeToken v
  end.

Definition cutPrefixChar (c : ascii) (v : string) : option string :=
  match v with
  | String d r => if Ascii.eqb c d then Some r else None
  | EmptyString => None
  end.

(** [consumeMediaParam v]: one [; key=value]; the key is empty when [v] does
    not start with a well-formed parameter. *)
Definition consumeMediaParam (v : string) : string * string * string :=
  match cutPrefixChar ";" (TrimLeft v) with
  | None => (EmptyString, EmptyString, v)
  | Some rest =>
      let '(param, rest) := consumeToken (TrimLeft rest) in
      let param := ToLower param in
      if decide (param = EmptyString) then (EmptyString, EmptyString, v)
      else match cutPrefixChar "=" (TrimLeft rest) with
           | None => (EmptyString, EmptyString, v)
           | Some rest =>
               let rest := TrimLeft rest in
               let '(value, rest2) := consumeValue rest in
               if bool_decide (value = EmptyString) && bool_decide (rest2 = rest)
               then (EmptyString, EmptyString, v)
               else (param, value, rest2)
           end
  end.

Definition lookupParam (key : string) (params : list (string * string)) : option string :=
  snd <$> List.find (fun kv => String.eqb (fst kv) key) params.

(** The parameter loop; it only decides whether parsing fails.  [fuel]
    bounds the iterations, each of which consumes input. *)
Fixpoint parseParams (fuel : nat) (v : string) (params : list (string * string))
    : option error :=
  match fuel with
  | O => None
  | S fuel =>
      let v := TrimLeft v in
      if decide (v = EmptyString) then None
      else
        let '(key, value, rest) := consumeMediaParam v in
        if decide (key = EmptyString) then
          if decide (TrimSpace rest = ";") then None
          else Some "mime: invalid media parameter"
        else
          match lookupParam key params with
          | Some old =>
              if decide (old = value) then parseParams fuel rest params
              else Some "mime: duplicate parameter name"
          | None => parseParams fuel rest ((key, value) :: params)
          end
  end.

Definition ParseMediaType (v : string) : string * option error :=
  let '(base, rest) := cutSemicolon v in
  let mediatype := TrimSpace (ToLower base) in
  match checkMediaTypeDisposition mediatype with
  | Some err => (EmptyString, Some err)
  | None =>
      match parseParams (S (String.length rest)) rest [] with
      | Some err =>
          if decide (err = "mime: invalid media parameter")
          then (mediatype, Some err) else (EmptyString, Some err)
      | None => (mediatype, None)
      end
  end.
End mime.

(** ** The media prober: [getVideoAspectRatio] *)

Record ProbeStream := { Width : Z; Height : Z }.
Record ProbeOutput := { Streams : list ProbeStream }.

(** What running [ffprobe] and decoding its standard output can give. *)
Inductive ProbeRun :=
| RunError (err : error)
| UnmarshalError (err : error)
| Unmarshalled (probeOutput : ProbeOutput).

(** The part of [getVideoAspectRatio] after the output is decoded. *)
Definition aspectRatio (probeOutput : ProbeOutput) : string :=
  match Streams probeOutput with
  | [] => "other"
  | stream0 :: _ =>
      let width := Float64.of_int (Width stream0) in
      let height := Float64.of_int (Height stream0) in
      if Float64.eqb height Float64.zero then "other"
      else
        let ratio := Float64.div width height in
        if Float64.ltb Float64.c1_7 ratio && Float64.ltb ratio Float64.c1_8
        then "16:9"
        else if Float64.ltb Float64.c0_55 ratio && Float64.ltb ratio Float64.c0_57
        then "9:16"
        else "other"
  end.

(** The [switch aspectRatio] of [handlerUploadVideo]. *)
Definition s3KeyPrefix (aspectRatio : string) : string :=
  if decide (aspectRatio = "16:9") then "landscape"
  else if decide (aspectRatio = "9:16") then "portrait"
  else "other".

(** ** [getFileExtension] *)

Definition getFileExtension (contentType : string) : string * option error :=
  if decide (contentType = "image/jpeg") then (".jpg", None)
  else if decide (contentType = "image/png") then (".png", None)
  else if decide (contentType = "image/gif") then (".gif", None)
  else (EmptyString, Some ("unsupported content type: " +:+ contentType)).

(** ** Records, the world and the environment of a request *)

(** Modelled from the spec: the Record ([database.Video] is declared outside
    the listed source): an identifier, the owner, the two optional locators,
    and the remaining descriptive fields, which no handler reads. *)
Record Video := {
  ID : UUID;
  UserID : UUID;
  ThumbnailURL : option string;
  VideoURL : option string;
  Details : string
}.

Definition setVideoURL (url : string) (video : Video) : Video :=
  {| ID := ID video; UserID := UserID video; ThumbnailURL := ThumbnailURL video;
     VideoURL := Some url; Details := Details video |}.

Definition setThumbnailURL (url : string) (video : Video) : Video :=
  {| ID := ID video; UserID := UserID video; ThumbnailURL := Some url;
     VideoURL := VideoURL video; Details := Details video |}.

(** The zero value [database.Video{}]. *)
Definition zeroVideo : Video :=
  {| ID := EmptyString; UserID := EmptyString; ThumbnailURL := None;
     VideoURL := None; Details := EmptyString |}.

(** An [s3.PutObjectInput], with the body read out. *)
Record PutObjectInput := {
  Bucket : string;
  Key : string;
  Body : bytes;
  ContentType : string
}.

(** What outlives a request: the record store, the local disk (temporary
    directory and assets root), and the bucket. *)
Record World := {
  db : gmap UUID Video;
  disk : gmap string bytes;
  s3 : list PutObjectInput
}.

(** A multipart file part: its bytes and its [Content-Type] header. *)
Record FilePart := { content : bytes; partContentType : string }.

Inductive Handle := MultipartFile | OsFile (name : string).

(** The calls a handler makes, in order. *)
Inductive Event :=
| EvRespondWithError (code : Z) (msg : string) (err : option error)
| EvRespondWithJSON (code : Z) (payload : Video)
| EvGetVideo (videoID : UUID)
| EvUpdateVideo (video : Video)
| EvFormFile (field : string)
| EvCreateTemp (pattern name : string)
| EvCreate (path : string)
| EvCopy (dst : string)
| EvSeek (name : string)
| EvFfmpeg (input output : string)
| EvFfprobe (filePath : string)
| EvRandRead
| EvOpen (path : string)
| EvPutObject (input : PutObjectInput)
| EvClose (h : Handle)
| EvRemove (path : string).

(** The configuration and the answers of the collaborators that are not
    determined by the world: each field is what the call of that name
    returns for this request. *)
Record Env := {
  s3Bucket : string;
  s3Region : string;
  assetsRoot : string;
  port : string;
  (** [uuid.Parse(r.PathValue("videoID"))] *)
  uuid_Parse : UUID * option error;
  auth_GetBearerToken : string * option error;
  (** [auth.ValidateJWT(token, cfg.jwtSecret)] *)
  auth_ValidateJWT : string -> UUID * option error;
  r_ParseMultipartForm : option error;
  (** [r.FormFile]: the part, or an error with a nil file and header *)
  r_FormFile : FilePart + error;
  mime_ParseMediaType : string -> string * option error;
  (** [os.CreateTemp]: the name chosen for the new file *)
  os_CreateTemp : string * option error;
  os_Create : option error;
  (** [io.Copy]: [None] when every byte is written, [Some n] when it fails
      after [n] bytes *)
  io_Copy : option nat;
  tempFile_Seek : option error;
  (** [ffmpeg] on an input file: the output file it leaves, if any, and the
      error of [cmd.Run] *)
  exec_ffmpeg : bytes -> option bytes * option error;
  exec_ffprobe : bytes -> ProbeRun;
  (** [rand.Read]: the bytes delivered *)
  rand_Read : bytes * option error;
  s3Client_PutObject : option error;
  db_UpdateVideo : option error
}.

(** ** Handlers as computations *)

Inductive Deferred := DeferClose (h : Handle) | DeferRemove (path : string).

Record State := {
  world : World;
  trace : list Event;
  deferred : list Deferred
}.

(** A statement either falls through with a value, returns from the
    handler, or panics. *)
Inductive Flow (A : Type) :=
| Next (a : A)
| Return
| Panic.
Arguments Next {A} a.
Arguments Return {A}.
Arguments Panic {A}.

Definition Handler (A : Type) : Type := State -> Flow A * State.

Definition pure {A} (a : A) : Handler A := fun st => (Next a, st).

Definition bind {A B} (m : Handler A) (k : A -> Handler B) : Handler B :=
  fun st =>
    match m st with
    | (Next a, st') => k a st'
    | (Return, st') => (Return, st')
    | (Panic, st') => (Panic, st')
    end.

#[global] Instance Handler_ret : MRet Handler := @pure.
#[global] Instance Handler_bind : MBind Handler := fun A B k m => bind m k.

Definition return_ {A} : Handler A := fun st => (Return, st).
Definition panic {A} : Handler A := fun st => (Panic, st).

Definition emit (e : Event) : Handler unit :=
  fun st => (Next tt, {| world := world st; trace := trace st ++ [e];
                         deferred := deferred st |}).

Definition defer (d : Deferred) : Handler unit :=
  fun st => (Next tt, {| world := world st; trace := trace st;
                         deferred := d :: deferred st |}).

Definition getWorld : Handler World := fun st => (Next (world st), st).

Definition setWorld (w : World) : Handler unit :=
  fun st => (Next tt, {| world := w; trace := trace st; deferred := deferred st |}).

Definition setDisk (d : gmap string bytes) (w : World) : World :=
  {| db := db w; disk := d; s3 := s3 w |}.
Definition setDb (d : gmap UUID Video) (w : World) : World :=
  {| db := d; disk := disk w; s3 := s3 w |}.
Definition setS3 (l : list PutObjectInput) (w : World) : World :=
  {| db := db w; disk := disk w; s3 := l |}.

(** A deferred call, run when the handler returns or panics. *)
Definition runDeferred (d : Deferred) (st : State) : State :=
  match d with
  | DeferClose h =>
      {| world := world st; trace := trace st ++ [EvClose h]; deferred := deferred st |}
  | DeferRemove path =>
      {| world := setDisk (delete path (disk (world st))) (world st);
         trace := trace st ++ [EvRemove path]; deferred := deferred st |}
  end.

(** Serving a request: run the handler on the world, then its deferred
    calls, last registered first. *)
Definition serve (h : Handler unit) (w : World) : State :=
  let st := snd (h {| world := w; trace := []; deferred := [] |}) in
  fold_left (fun st d => runDeferred d st) (deferred st)
    {| world := world st; trace := trace st; deferred := [] |}.

(** *** The collaborators *)

(** Modelled from the spec: [respondWithError] and [respondWithJSON], which
    write the structured error body or the record with the given status;
    the file that defines them is not among the listed sources.  The call
    is recorded with its arguments. *)
Definition respondWithError (code : Z) (msg : string) (err : option error)
    : Handler unit :=
  emit (EvRespondWithError code msg err).

Definition respondWithJSON (code : Z) (payload : Video) : Handler unit :=
  emit (EvRespondWithJSON code payload).

(** Modelled from the spec: [cfg.db.GetVideo], the store's
    [getRecord(id) -> Record | NotFound]; the package [internal/database] is
    not among the listed sources. *)
Definition GetVideo (videoID : UUID) : Handler (Video * option error) :=
  emit (EvGetVideo videoID) ;;
  w ← getWorld;
  match db w !! videoID with
  | Some video => pure (video, None)
  | None => pure (zeroVideo, Some "NotFound")
  end.

(** Modelled from the spec: [cfg.db.UpdateVideo], the store's
    [updateRecord(Record) -> ok | error], an atomic single-record operation:
    it replaces the stored record of that identifier, or fails and leaves
    the store as it was. *)
Definition UpdateVideo (env : Env) (video : Video) : Handler (option error) :=
  emit (EvUpdateVideo video) ;;
  match db_UpdateVideo env with
  | Some err => pure (Some err)
  | None =>
      w ← getWorld;
      match db w !! ID video with
      | Some _ => setWorld (setDb (<[ID video := video]> (db w)) w) ;; pure None
      | None => pure None
      end
  end.

Definition FormFile (env : Env) (field : string) : Handler (FilePart + error) :=
  emit (EvFormFile field) ;; pure (r_FormFile env).

(** [os.CreateTemp("", pattern)]: a new empty file. *)
Definition CreateTemp (env : Env) (pattern : string) : Handler (string * option error) :=
  let '(name, err) := os_CreateTemp env in
  emit (EvCreateTemp pattern name) ;;
  match err with
  | Some _ => pure (name, err)
  | None =>
      w ← getWorld;
      setWorld (setDisk (<[name := []]> (disk w)) w) ;; pure (name, None)
  end.

(** [os.Create(path)]: the file is created, or truncated when it exists. *)
Definition Create (env : Env) (path : string) : Handler (option error) :=
  emit (EvCreate path) ;;
  match os_Create env with
  | Some err => pure (Some err)
  | None =>
      w ← getWorld;
      setWorld (setDisk (<[path := []]> (disk w)) w) ;; pure None
  end.

(** [io.Copy(dst, src)] into the file [dst]. *)
Definition Copy (env : Env) (dst : string) (src : bytes) : Handler (option error) :=
  emit (EvCopy dst) ;;
  w ← getWorld;
  match io_Copy env with
  | None => setWorld (setDisk (<[dst := src]> (disk w)) w) ;; pure None
  | Some n =>
      setWorld (setDisk (<[dst := take n src]> (disk w)) w) ;;
      pure (Some "short write")
  end.

Definition Seek (env : Env) (name : string) : Handler (option error) :=
  emit (EvSeek name) ;; pure (tempFile_Seek env).

(** [exec.Command("ffmpeg", "-i", input, ..., output).Run()]. *)
Definition runFfmpeg (env : Env) (input output : string) : Handler (option error) :=
  emit (EvFfmpeg input output) ;;
  w ← getWorld;
  match disk w !! input with
  | None => pure (Some "exit status 1")
  | Some src =>
      let '(out, err) := exec_ffmpeg env src in
      match out with
      | Some b => setWorld (setDisk (<[output := b]> (disk w)) w) ;; pure err
      | None => pure err
      end
  end.

(** [exec.Command("ffprobe", ..., filePath).Run()] and [json.Unmarshal]. *)
Definition runFfprobe (env : Env) (filePath : string) : Handler ProbeRun :=
  emit (EvFfprobe filePath) ;;
  w ← getWorld;
  match disk w !! filePath with
  | None => pure (RunError "exit status 1")
  | Some src => pure (exec_ffprobe env src)
  end.

(** [rand.Read(randBytes)] on [randBytes := make([]byte, 32)]. *)
Definition randRead32 (env : Env) : Handler (bytes * option error) :=
  emit EvRandRead ;;
  let '(src, err) := rand_Read env in
  pure (take 32 (src ++ replicate 32 x00), err).

(** [os.Open(path)], and the bytes a later read of the file gives. *)
Definition Open (path : string) : Handler (bytes * option error) :=
  emit (EvOpen path) ;;
  w ← getWorld;
  match disk w !! path with
  | Some b => pure (b, None)
  | None => pure ([], Some "no such file or directory")
  end.

Definition PutObject (env : Env) (input : PutObjectInput) : Handler (option error) :=
  emit (EvPutObject input) ;;
  match s3Client_PutObject env with
  | Some err => pure (Some err)
  | None => w ← getWorld; setWorld (setS3 (s3 w ++ [input]) w) ;; pure None
  end.

(** The bytes of an open temporary file, as an upload body reads them. *)
Definition readFile (name : string) : Handler bytes :=
  w ← getWorld; pure (default [] (disk w !! name)).

(** [if err != nil { respondWithError(w, code, msg, err); return }] *)
Definition failIf (err : option error) (code : Z) (msg : string) : Handler unit :=
  match err with
  | Some _ => respondWithError code msg err ;; return_
  | None => pure tt
  end.

(** [if err != nil { respondWithError(w, code, msg, err) }], with no return. *)
Definition reportIf (err : option error) (code : Z) (msg : string) : Handler unit :=
  match err with
  | Some _ => respondWithError code msg err
  | None => pure tt
  end.

(** [filepath.Join(dir, name)] for a clean directory and a plain file name. *)
Definition filepath_Join (dir name : string) : string := dir +:+ "/" +:+ name.

(** ** [processVideoForFastStart] and [getVideoAspectRatio] *)

Definition processVideoForFastStart (env : Env) (filePath : string)
    : Handler (string * option error) :=
  let processedFilePath := filePath +:+ ".processing" in
  err ← runFfmpeg env filePath processedFilePath;
  match err with
  | Some e => pure (EmptyString, Some ("could not run ffmpeg: " +:+ e))
  | None => pure (processedFilePath, None)
  end.

Definition getVideoAspectRatio (env : Env) (filePath : string)
    : Handler (string * option error) :=
  run ← runFfprobe env filePath;
  match run with
  | RunError e => pure (EmptyString, Some ("could not run ffprobe: " +:+ e))
  | UnmarshalError e =>
      pure (EmptyString, Some ("could not unmarshal ffprobe output: " +:+ e))
  | Unmarshalled probeOutput => pure (aspectRatio probeOutput, None)
  end.

(** ** The handlers *)

Definition videoURLOf (env : Env) (s3Key : string) : string :=
  "https://" +:+ s3Bucket env +:+ ".s3." +:+ s3Region env +:+ ".amazonaws.com/" +:+ s3Key.

Definition thumbnailURLOf (env : Env) (filename : string) : string :=
  "http://localhost:" +:+ port env +:+ "/assets/" +:+ filename.

Definition unsupportedVideo (parsedMediaType : string) : string :=
  "Unsupported file type: " +:+ parsedMediaType +:+ ". Only MP4 videos are allowed.".

Definition unsupportedImage (parsedMediaType : string) : string :=
  "Unsupported file type: " +:+ parsedMediaType +:+ ". Only JPEG and PNG are allowed.".

(** The first listing of [handlerUploadVideo] (lines 17 to 121): the staged
    file itself is uploaded.  Up to the form file, a failure is reported and
    the handler goes on; [file.Close()] comes at once and panics on the nil
    file of a failed [r.FormFile]. *)
Module Direct.
Definition handlerUploadVideo (env : Env) : Handler unit :=
  let '(videoID, err) := uuid_Parse env in
  reportIf err 400 "Invalid video ID" ;;
  let '(token, err) := auth_GetBearerToken env in
  reportIf err 401 "Couldn't find JWT" ;;
  let '(userID, err) := auth_ValidateJWT env token in
  reportIf err 401 "Couldn't validate JWT" ;;
  '(video, err) ← GetVideo videoID;
  reportIf err 404 "Video not found" ;;
  (if bool_decide (UserID video = userID) then pure tt
   else respondWithError 401 "You are not authorized to upload this video" None) ;;
  part ← FormFile env "video";
  match part with
  | inr err =>
      respondWithError 400 "Couldn't get video file from form" (Some err) ;;
      panic
  | inl part =>
      emit (EvClose MultipartFile) ;;
      let contentType := partContentType part in
      let '(parsedMediaType, err) := mime_ParseMediaType env contentType in
      failIf err 400 "Failed to parse media type" ;;
      (if bool_decide (parsedMediaType = "video/mp4") then pure tt
       else (respondWithError 400 (unsupportedVideo parsedMediaType) None ;;
             return_)) ;;
      '(tempFile, err) ← CreateTemp env "tubely-upload.mp4";
      failIf err 500 "Couldn't create temp file" ;;
      defer (DeferRemove tempFile) ;;
      defer (DeferClose (OsFile tempFile)) ;;
      err ← Copy env tempFile (content part);
      failIf err 500 "Couldn't copy video to temp file" ;;
      err ← Seek env tempFile;
      failIf err 500 "Couldn't reset temp file pointer" ;;
      '(randBytes, err) ← randRead32 env;
      failIf err 500 "Could not generate random filename for S3 key" ;;
      let s3Key := base64.EncodeToString randBytes +:+ ".mp4" in
      body ← readFile tempFile;
      err ← PutObject env {| Bucket := s3Bucket env; Key := s3Key;
                              Body := body; ContentType := contentType |};
      failIf err 500 "Couldn't upload file to S3" ;;
      let videoURL := videoURLOf env s3Key in
      let video := setVideoURL videoURL video in
      err ← UpdateVideo env video;
      failIf err 500 "Couldn't update video record" ;;
      respondWithJSON 200 video
  end.
End Direct.

(** The second listing of [handlerUploadVideo] (lines 141 to 280): every
    failure returns, the staged file is processed for fast start and probed,
    and the processed file is uploaded under a prefixed key. *)
Module FastStart.
Definition handlerUploadVideo (env : Env) : Handler unit :=
  let '(videoID, err) := uuid_Parse env in
  failIf err 400 "Invalid video ID" ;;
  let '(token, err) := auth_GetBearerToken env in
  failIf err 401 "Couldn't find JWT" ;;
  let '(userID, err) := auth_ValidateJWT env token in
  failIf err 401 "Couldn't validate JWT" ;;
  '(video, err) ← GetVideo videoID;
  failIf err 404 "Video not found" ;;
  (if bool_decide (UserID video = userID) then pure tt
   else (respondWithError 401 "You are not authorized to upload this video" None ;;
         return_)) ;;
  part ← FormFile env "video";
  match part with
  | inr err =>
      respondWithError 400 "Couldn't get video file from form" (Some err) ;;
      return_
  | inl part =>
      defer (DeferClose MultipartFile) ;;
      let contentType := partContentType part in
      let '(parsedMediaType, err) := mime_ParseMediaType env contentType in
      failIf err 400 "Failed to parse media type" ;;
      (if bool_decide (parsedMediaType = "video/mp4") then pure tt
       else (respondWithError 400 (unsupportedVideo parsedMediaType) None ;;
             return_)) ;;
      '(tempFile, err) ← CreateTemp env "tubely-upload-*.mp4";
      failIf err 500 "Couldn't create temp file" ;;
      defer (DeferRemove tempFile) ;;
      defer (DeferClose (OsFile tempFile)) ;;
      err ← Copy env tempFile (content part);
      failIf err 500 "Couldn't copy video to temp file" ;;
      err ← Seek env tempFile;
      failIf err 500 "Couldn't reset temp file pointer" ;;
      '(processedFilePath, err) ← processVideoForFastStart env tempFile;
      failIf err 500 "Couldn't process video for fast start" ;;
      defer (DeferRemove processedFilePath) ;;
      '(aspectRatio, err) ← getVideoAspectRatio env tempFile;
      failIf err 500 "Couldn't get video aspect ratio" ;;
      let s3KeyPrefix := s3KeyPrefix aspectRatio in
      '(randBytes, err) ← randRead32 env;
      failIf err 500 "Could not generate random filename for S3 key" ;;
      let s3Key := s3KeyPrefix +:+ "/" +:+ base64.EncodeToString randBytes +:+ ".mp4" in
      '(processedFile, err) ← Open processedFilePath;
      failIf err 500 "Couldn't open processed video file" ;;
      defer (DeferClose (OsFile processedFilePath)) ;;
      err ← PutObject env {| Bucket := s3Bucket env; Key := s3Key;
                              Body := processedFile; ContentType := contentType |};
      failIf err 500 "Couldn't upload file to S3" ;;
      let videoURL := videoURLOf env s3Key in
      let video := setVideoURL videoURL video in
      err ← UpdateVideo env video;
      failIf err 500 "Couldn't update video record" ;;
      respondWithJSON 200 video
  end.
End FastStart.

(** The first listing of [handlerUploadThumbnail] (lines 386 to 503): the
    media type is parsed and checked, and the file gets a random name. *)
Module RandomName.
Definition handlerUploadThumbnail (env : Env) : Handler unit :=
  let '(videoID, err) := uuid_Parse env in
  failIf err 400 "Invalid ID" ;;
  let '(token, err) := auth_GetBearerToken env in
  failIf err 401 "Couldn't find JWT" ;;
  let '(userID, err) := auth_ValidateJWT env token in
  failIf err 401 "Couldn't validate JWT" ;;
  failIf (r_ParseMultipartForm env) 400 "Failed to parse form data" ;;
  part ← FormFile env "thumbnail";
  match part with
  | inr err =>
      respondWithError 400 "Couldn't get thumbnail file from form" (Some err) ;;
      return_
  | inl part =>
      defer (DeferClose MultipartFile) ;;
      let mediaType := partContentType part in
      (if bool_decide (mediaType = EmptyString)
       then (respondWithError 400 "Content-Type header is missing" None ;; return_)
       else pure tt) ;;
      let '(parsedMediaType, err) := mime_ParseMediaType env mediaType in
      failIf err 400 "Failed to parse media type" ;;
      (if bool_decide (parsedMediaType <> "image/jpeg")
          && bool_decide (parsedMediaType <> "image/png")
       then (respondWithError 400 (unsupportedImage parsedMediaType) None ;;
             return_)
       else pure tt) ;;
      let '(fileExt, err) := getFileExtension parsedMediaType in
      match err with
      | Some e => respondWithError 400 e None ;; return_
      | None => pure tt
      end ;;
      '(randBytes, err) ← randRead32 env;
      failIf err 500 "Could not generate random filename" ;;
      let filename := base64.EncodeToString randBytes +:+ fileExt in
      let filePath := filepath_Join (assetsRoot env) filename in
      err ← Create env filePath;
      failIf err 500 "Couldn't create file on disk" ;;
      defer (DeferClose (OsFile filePath)) ;;
      err ← Copy env filePath (content part);
      failIf err 500 "Couldn't save file to disk" ;;
      '(video, err) ← GetVideo videoID;
      failIf err 404 "Video not found" ;;
      (if bool_decide (UserID video = userID) then pure tt
       else (respondWithError 401
               "You are not authorized to upload a thumbnail for this video" None ;;
             return_)) ;;
      let thumbnailURL := thumbnailURLOf env filename in
      let video := setThumbnailURL thumbnailURL video in
      err ← UpdateVideo env video;
      failIf err 500 "Couldn't update video metadata" ;;
      respondWithJSON 200 video
  end.
End RandomName.

(** The second listing of [handlerUploadThumbnail] (lines 531 to 628): the
    header goes to [getFileExtension] as it is, and the file is named after
    the video. *)
Module ByVideoID.
Definition handlerUploadThumbnail (env : Env) : Handler unit :=
  let '(videoID, err) := uuid_Parse env in
  failIf err 400 "Invalid ID" ;;
  let '(token, err) := auth_GetBearerToken env in
  failIf err 401 "Couldn't find JWT" ;;
  let '(userID, err) := auth_ValidateJWT env token in
  failIf err 401 "Couldn't validate JWT" ;;
  failIf (r_ParseMultipartForm env) 400 "Failed to parse form data" ;;
  part ← FormFile env "thumbnail";
  match part with
  | inr err =>
      respondWithError 400 "Couldn't get thumbnail file from form" (Some err) ;;
      return_
  | inl part =>
      defer (DeferClose MultipartFile) ;;
      let mediaType := partContentType part in
      (if bool_decide (mediaType = EmptyString)
       then (respondWithError 400 "Content-Type header is missing" None ;; return_)
       else pure tt) ;;
      let '(fileExt, err) := getFileExtension mediaType in
      match err with
      | Some e => respondWithError 400 e None ;; return_
      | None => pure tt
      end ;;
      let filename := videoID +:+ fileExt in
      let filePath := filepath_Join (assetsRoot env) filename in
      err ← Create env filePath;
      failIf err 500 "Couldn't create file on disk" ;;
      defer (DeferClose (OsFile filePath)) ;;
      err ← Copy env filePath (content part);
      failIf err 500 "Couldn't save file to disk" ;;
      '(video, err) ← GetVideo videoID;
      failIf err 404 "Video not found" ;;
      (if bool_decide (UserID video = userID) then pure tt
       else (respondWithError 401
               "You are not authorized to upload a thumbnail for this video" None ;;
             return_)) ;;
      let thumbnailURL := thumbnailURLOf env filename in
      let video := setThumbnailURL thumbnailURL video in
      err ← UpdateVideo env video;
      failIf err 500 "Couldn't update video metadata" ;;
      respondWithJSON 200 video
  end.
End ByVideoID.

(** ** Reading a trace *)

Definition isCleanup (e : Event) : bool :=
  match e with
  | EvClose _ | EvRemove _ => true
  | _ => false
  end.

(** After the first error response only deferred clean-up calls follow. *)
Fixpoint errorIsFinal (tr : list Event) : bool :=
  match tr with
  | [] => true
  | EvRespondWithError _ _ _ :: rest => forallb isCleanup rest
  | _ :: rest => errorIsFinal rest
  end.

Definition responsesOf (tr : list Event) : list Event :=
  flat_map (fun e => match e with
                     | EvRespondWithError _ _ _ | EvRespondWithJSON _ _ => [e]
                     | _ => []
                     end) tr.

Definition errorsOf (tr : list Event) : list (Z * string) :=
  flat_map (fun e => match e with
                     | EvRespondWithError code msg _ => [(code, msg)]
                     | _ => []
                     end) tr.

Definition putObjectsOf (tr : list Event) : list PutObjectInput :=
  flat_map (fun e => match e with EvPutObject input => [input] | _ => [] end) tr.

Definition updatesOf (tr : list Event) : list Video :=
  flat_map (fun e => match e with EvUpdateVideo video => [video] | _ => [] end) tr.

Definition probesOf (tr : list Event) : list string :=
  flat_map (fun e => match e with EvFfprobe filePath => [filePath] | _ => [] end) tr.

Definition transcodesOf (tr : list Event) : list (string * string) :=
  flat_map (fun e => match e with
                     | EvFfmpeg input output => [(input, output)]
                     | _ => []
                     end) tr.

(** The files a handler created, temporary or not. *)
Definition createdOf (tr : list Event) : list string :=
  flat_map (fun e => match e with
                     | EvCreateTemp _ name => [name]
                     | EvCreate path => [path]
                     | _ => []
                     end) tr.

(** The prefix the handler derives for a decoded probe output. *)
Definition classification (probeOutput : ProbeOutput) : string :=
  s3KeyPrefix (aspectRatio probeOutput).

(** The token of a storage key: the 32 bytes of [randBytes], encoded. *)
Definition tokenOf (env : Env) : string :=
  base64.EncodeToString (take 32 (fst (rand_Read env) ++ replicate 32 x00)).

(** ** Sample requests *)

Module Sample.
Definition video : Video :=
  {| ID := "4c2b8b1e-0d0c-4c0a-9b57-3d1f6a2e9a10"; UserID := "alice";
     ThumbnailURL := None; VideoURL := None; Details := "Holiday" |}.

Definition world : World :=
  {| db := {[ ID video := video ]}; disk := ∅; s3 := [] |}.

Definition stream1080p : ProbeOutput :=
  {| Streams := [{| Width := 1920; Height := 1080 |}] |}.

(** A request by [caller] for the sample video, carrying [part]; [ffmpeg]
    is what the encoder does, and every other collaborator succeeds. *)
Definition request (caller : UUID) (part : FilePart)
    (ffmpeg : bytes -> option bytes * option error) : Env :=
  {| s3Bucket := "tubely"; s3Region := "us-east-2";
     assetsRoot := "assets"; port := "8091";
     uuid_Parse := (ID video, None);
     auth_GetBearerToken := ("token", None);
     auth_ValidateJWT := fun _ => (caller, None);
     r_ParseMultipartForm := None;
     r_FormFile := inl part;
     mime_ParseMediaType := mime.ParseMediaType;
     os_CreateTemp := ("/tmp/tubely-upload-1.mp4", None);
     os_Create := None;
     io_Copy := None;
     tempFile_Seek := None;
     exec_ffmpeg := ffmpeg;
     exec_ffprobe := fun _ => Unmarshalled stream1080p;
     rand_Read := (replicate 32 x00, None);
     s3Client_PutObject := None;
     db_UpdateVideo := None |}.

Definition faststart (src : bytes) : option bytes * option error :=
  (Some src, None).

(** The encoder writes part of its output and exits with status 1. *)
Definition brokenEncoder (src : bytes) : option bytes * option error :=
  (Some (take 1 src), Some "exit status 1").

Definition mp4 : FilePart :=
  {| content := [x00; x00; x00; x20]; partContentType := "video/mp4" |}.
Definition mp4WithCodecs : FilePart :=
  {| content := [x00; x00; x00; x20]; partContentType := "video/mp4; codecs=avc1" |}.
Definition malformed : FilePart :=
  {| content := [x00]; partContentType := "mp4 video" |}.
Definition png : FilePart :=
  {| content := [x89; x50; x4e; x47]; partContentType := "image/png" |}.
Definition gif : FilePart :=
  {| content := [x47; x49; x46]; partContentType := "image/gif" |}.
End Sample.

(** ** Rounding, for the analysis of [aspectRatio] *)

(** Where a remainder [r] out of [H] lies between two neighbours. *)
Definition loc_ok (H r : Z) (l : location) : Prop :=
  match l with
  | loc_Exact => r = 0
  | loc_Inexact Lt => 0 < r /\ 2 * r < H
  | loc_Inexact Eq => 0 < r /\ 2 * r = H
  | loc_Inexact Gt => 0 < r /\ H < 2 * r
  end.

(** The exact quotient [w / h] lies within half a unit in the last place
    of the float [m * 2 ^ e]. *)
Definition near (w h m e : Z) : Prop :=
  if 0 <=? e
  then Z.abs (2 * w - 2 * m * 2 ^ e * h) <= 2 ^ e * h
  else Z.abs (2 * w * 2 ^ (- e) - 2 * m * h) <= h.

(** A float with the sign bit set, or a NaN, is never above a positive
    constant. *)
Definition notPositive (x : Float64.float64) : Prop :=
  match x with
  | S754_nan => True
  | S754_zero s | S754_infinity s | S754_finite s _ _ => s = true
  end.

(** ** Further readings of a run *)

(** The files the encoder was told to write. *)
Definition outputsOf (tr : list Event) : list string :=
  map snd (transcodesOf tr).

(** The store holds each record under its own identifier. *)
Definition storeKeyed (d : gmap UUID Video) : Prop :=
  forall k video, d !! k = Some video -> ID video = k.

(** The state in which [serve] starts a handler. *)
Definition initial (w : World) : State :=
  {| world := w; trace := []; deferred := [] |}.

(** A character of the URL-safe base64 alphabet. *)
Definition isURLSafe (c : ascii) : bool :=
  strings_Contains base64.encodeURL (String c EmptyString).

(** * Properties *)

(** ** Division of converted integers in binary64 *)

Section Rounding.
Import Float64.

Lemma digits2_pos_size p : digits2_pos p = Pos.size p.
Proof. induction p; simpl; congruence. Qed.

Lemma Zdigits2_bounds m k : 0 < k -> 2 ^ (k - 1) <= m < 2 ^ k -> Zdigits2 m = k.
Proof.
intros Hk [Hlo Hhi].
assert (0 < m) by (pose proof (Z.pow_pos_nonneg 2 (k - 1)); lia).
destruct m as [|p|p]; try lia. simpl.
rewrite digits2_pos_size.
pose proof (Pos.size_gt p) as Hgt. pose proof (Pos.size_le p) as Hle.
apply Pos2Z.pos_lt_pos in Hgt. apply Pos2Z.pos_le_pos in Hle.
rewrite Pos2Z.inj_pow in Hgt, Hle.
change (Z.pos p~0) with (2 * Z.pos p) in Hle.
destruct (Z.lt_trichotomy (Z.pos (Pos.size p)) k) as [Hc|[Hc|Hc]]; [|done|].
- exfalso. assert (2 ^ Z.pos (Pos.size p) <= 2 ^ (k - 1)) by (apply Z.pow_le_mono_r; lia). lia.
- exfalso. assert (2 ^ k <= 2 ^ (Z.pos (Pos.size p) - 1)) by (apply Z.pow_le_mono_r; lia).
  assert (2 ^ Z.pos (Pos.size p) = 2 * 2 ^ (Z.pos (Pos.size p) - 1)).
  { rewrite <- Z.pow_succ_r by lia. f_equal. lia. }
  lia.
Qed.

Lemma Zdigits2_range p : 2 ^ (Zdigits2 (Z.pos p) - 1) <= Z.pos p < 2 ^ Zdigits2 (Z.pos p).
Proof.
simpl. rewrite digits2_pos_size.
pose proof (Pos.size_gt p) as Hgt. pose proof (Pos.size_le p) as Hle.
apply Pos2Z.pos_lt_pos in Hgt. apply Pos2Z.pos_le_pos in Hle.
rewrite Pos2Z.inj_pow in Hgt, Hle.
change (Z.pos p~0) with (2 * Z.pos p) in Hle.
assert (2 ^ Z.pos (Pos.size p) = 2 * 2 ^ (Z.pos (Pos.size p) - 1)).
{ rewrite <- Z.pow_succ_r by lia. f_equal. lia. }
lia.
Qed.

Lemma iter_xO_pow p k : Z.pos (Pos.iter xO p k) = Z.pos p * 2 ^ Z.pos k.
Proof.
rewrite <- Z.shiftl_mul_pow2 by lia. simpl.
apply (Pos.iter_swap_gen _ _ Z.pos xO (Z.mul 2)). reflexivity.
Qed.

Lemma shl_align_spec mx ex ex' :
ex' <= ex ->
exists mx', shl_align mx ex ex' = (mx', ex') /\ Z.pos mx' = Z.pos mx * 2 ^ (ex - ex').
Proof.
intros Hle. unfold shl_align.
destruct (ex' - ex) as [|d|d] eqn:E; try lia.
- exists mx. assert (ex' = ex) by lia. subst. rewrite Z.sub_diag. split; [done | lia].
- exists (Pos.iter xO mx d). split; [done|].
  rewrite iter_xO_pow. do 2 f_equal. lia.
Qed.


Lemma new_location_ok H r : 0 < H -> 0 <= r < H -> loc_ok H r (new_location H r).
Proof.
intros HH Hr. unfold new_location, new_location_even, new_location_odd.
destruct (Z.even H) eqn:Ev.
- destruct (Z.eqb_spec r 0) as [->|Hne]; [done|]. simpl.
  destruct (Z.compare_spec (2 * r) H); simpl; lia.
- destruct (Z.eqb_spec r 0) as [->|Hne]; [done|]. simpl.
  assert (Z.odd H = true) as Hodd by (rewrite <- Z.negb_even, Ev; done).
  apply Z.odd_spec in Hodd as [k Hk].
  destruct (Z.compare_spec (2 * r + 1) H); simpl; lia.
Qed.

Lemma fexp_53 e : -1074 <= e -> fexp prec emax (53 + e) = e.
Proof. unfold fexp, emin, prec, emax. lia. Qed.

Lemma fexp_54 e : -1074 <= e -> fexp prec emax (54 + e) = e + 1.
Proof. unfold fexp, emin, prec, emax. lia. Qed.

Lemma shr_fexp_53 m e l :
2 ^ 52 <= m < 2 ^ 53 -> -1074 <= e ->
shr_fexp prec emax m e l = (shr_record_of_loc m l, e).
Proof.
intros Hm He. unfold shr_fexp.
rewrite (Zdigits2_bounds m 53) by (simpl; lia).
rewrite fexp_53, Z.sub_diag by done. reflexivity.
Qed.

Lemma shr_fexp_54 m e l :
2 ^ 53 <= m < 2 ^ 54 -> -1074 <= e ->
shr_fexp prec emax m e l = (shr_1 (shr_record_of_loc m l), e + 1).
Proof.
intros Hm He. unfold shr_fexp.
rewrite (Zdigits2_bounds m 54) by (simpl; lia).
rewrite fexp_54 by done.
replace (e + 1 - e) with 1 by lia. reflexivity.
Qed.

Lemma loc_of_shr_record_of_loc m l : loc_of_shr_record (shr_record_of_loc m l) = l.
Proof. by destruct l as [|[]]. Qed.

Lemma shr_m_of_loc m l : shr_m (shr_record_of_loc m l) = m.
Proof. by destruct l as [|[]]. Qed.

Lemma shr_1_of_loc m l :
1 < m ->
shr_1 (shr_record_of_loc m l) =
Build_shr_record (Z.div2 m) (Z.odd m) (match l with loc_Exact => false | _ => true end).
Proof.
intros Hm. destruct m as [|p|p]; try lia.
destruct p; try lia; by destruct l as [|[]].
Qed.

Lemma rne_cases H r m l :
loc_ok H r l -> 0 <= r < H ->
(round_nearest_even m l = m /\ 2 * r <= H) \/
(round_nearest_even m l = m + 1 /\ H <= 2 * r).
Proof.
intros Hl Hr. destruct l as [|[]]; simpl in *.
- left. lia.
- destruct (Z.even m); [left|right]; lia.
- left. lia.
- right. lia.
Qed.

(** Rounding a 53- or 54-bit quotient [m] with remainder [r] out of [H]:
  the result is a normal number within half a unit in the last place of
  the exact value [(m * H + r) / H * 2 ^ e]. *)
Lemma binary_round_aux_near s m e l H r :
0 < H -> 0 <= r < H -> loc_ok H r l ->
2 ^ 52 <= m < 2 ^ 54 -> -1074 <= e <= 900 ->
exists m' j,
  binary_round_aux prec emax s m e l = S754_finite s m' (e + j) /\
  0 <= j <= 2 /\ 2 ^ 52 <= Z.pos m' < 2 ^ 53 /\
  Z.abs (2 * (m * H + r) - 2 * (Z.pos m' * 2 ^ j) * H) <= 2 ^ j * H.
Proof.
intros HH Hr Hl Hm He. unfold binary_round_aux.
destruct (Z_lt_ge_dec m (2 ^ 53)) as [Hlt|Hge].
- (* 53 bits: no shift before rounding *)
  rewrite shr_fexp_53 by lia.
  rewrite shr_m_of_loc, loc_of_shr_record_of_loc.
  destruct (rne_cases H r m l Hl Hr) as [[-> Hb]|[-> Hb]].
  + rewrite shr_fexp_53 by lia. simpl shr_m.
    destruct m as [|p|p]; try lia.
    assert ((e <=? emax - prec) = true) as -> by (apply Z.leb_le; unfold emax, prec; lia).
    exists p, 0. rewrite Z.add_0_r. split; [done|]. split; [lia|]. split; [lia|].
    change (2 ^ 0) with 1. lia.
  + destruct (Z.eq_dec (m + 1) (2 ^ 53)) as [Heq|Hne].
    * rewrite Heq. rewrite shr_fexp_54 by lia.
      change (shr_m (shr_1 (shr_record_of_loc (2 ^ 53) loc_Exact))) with (Z.pos (Z.to_pos (2 ^ 52))).
      assert ((e + 1 <=? emax - prec) = true) as -> by (apply Z.leb_le; unfold emax, prec; lia).
      exists (Z.to_pos (2 ^ 52)), 1. split; [done|]. split; [lia|]. split; [simpl; lia|].
      change (Z.pos (Z.to_pos (2 ^ 52)) * 2 ^ 1) with (2 ^ 53). rewrite <- Heq.
      change (2 ^ 1) with 2. lia.
    * rewrite shr_fexp_53 by lia. simpl shr_m.
      destruct (m + 1) as [|p|p] eqn:Ep; try lia.
      assert ((e <=? emax - prec) = true) as -> by (apply Z.leb_le; unfold emax, prec; lia).
      exists p, 0. rewrite Z.add_0_r. split; [done|]. split; [lia|]. split; [lia|].
      change (2 ^ 0) with 1. lia.
- (* 54 bits: one bit is shifted out before rounding *)
  rewrite shr_fexp_54 by lia.
  rewrite shr_1_of_loc by lia.
  pose proof (Z.div2_odd m) as Hdo.
  cbn [shr_m]. set (m2 := Z.div2 m) in *. set (b := Z.odd m) in *.
  assert (2 ^ 52 <= m2 < 2 ^ 53) as Hm2 by (destruct b; simpl in Hdo; lia).
  assert (exists m1, round_nearest_even m2
            (loc_of_shr_record (Build_shr_record m2 b (match l with loc_Exact => false | _ => true end))) = m1 /\
          (m1 = m2 \/ m1 = m2 + 1) /\
          Z.abs (2 * (m * H + r) - 4 * m1 * H) <= 2 * H) as (m1 & -> & Hm1 & Hbr).
  { destruct b; simpl in Hdo.
    - destruct l as [|c]; simpl in Hl.
      + subst r. simpl. clearbody m2. subst m.
        destruct (IntDef.Z.even m2); [exists m2 | exists (m2 + 1)];
          (split; [done|]); (split; [auto|]); lia.
      + replace (loc_of_shr_record _) with (loc_Inexact Gt) by (by destruct c).
        simpl. clearbody m2. subst m. exists (m2 + 1).
        split; [done|]. split; [auto|]. destruct c; lia.
    - exists m2. clearbody m2. subst m. split.
      + destruct l as [|c]; simpl; [done|by destruct c].
      + split; [auto|]. lia. }
  simpl shr_m.
  destruct (Z.eq_dec m1 (2 ^ 53)) as [Heq|Hne].
  + rewrite Heq. rewrite shr_fexp_54 by lia.
    change (shr_m (shr_1 (shr_record_of_loc (2 ^ 53) loc_Exact))) with (Z.pos (Z.to_pos (2 ^ 52))).
    assert ((e + 1 + 1 <=? emax - prec) = true) as -> by (apply Z.leb_le; unfold emax, prec; lia).
    exists (Z.to_pos (2 ^ 52)), 2. replace (e + 2) with (e + 1 + 1) by lia.
    split; [done|]. split; [lia|]. split; [simpl; lia|].
    change (Z.pos (Z.to_pos (2 ^ 52)) * 2 ^ 2) with (2 * 2 ^ 53). rewrite <- Heq.
    change (2 ^ 2) with 4. lia.
  + rewrite shr_fexp_53 by lia. simpl shr_m.
    destruct m1 as [|p|p]; try lia.
    assert ((e + 1 <=? emax - prec) = true) as -> by (apply Z.leb_le; unfold emax, prec; lia).
    exists p, 1. split; [done|]. split; [lia|]. split; [lia|].
    change (2 ^ 1) with 2. lia.
Qed.

Lemma of_int_pos w :
0 < w < 2 ^ 53 ->
exists W a, of_int w = S754_finite false W (- a) /\
  0 <= a <= 52 /\ Z.pos W = w * 2 ^ a /\ 2 ^ 52 <= Z.pos W < 2 ^ 53.
Proof.
intros Hw. destruct w as [|p|p]; try lia.
unfold of_int, binary_normalize, binary_round.
pose proof (Zdigits2_range p) as Hd. simpl Zdigits2 in Hd.
set (d := Z.pos (digits2_pos p)) in *.
assert (1 <= d <= 53) as Hd53.
{ split; [lia|]. destruct (Z_le_gt_dec d 53); [done|].
  assert (2 ^ 53 <= 2 ^ (d - 1)) by (apply Z.pow_le_mono_r; lia). lia. }
replace (fexp prec emax (d + 0)) with (d - 53) by (unfold fexp, emin, prec, emax; lia).
destruct (shl_align_spec p 0 (d - 53)) as (W & -> & HW); [lia|].
replace (0 - (d - 53)) with (53 - d) in HW by lia.
assert (2 ^ 52 <= Z.pos W < 2 ^ 53) as HWr.
{ rewrite HW.
  assert (2 ^ 52 = 2 ^ (d - 1) * 2 ^ (53 - d)) as E1
    by (rewrite <- Z.pow_add_r by lia; f_equal; lia).
  assert (2 ^ 53 = 2 ^ d * 2 ^ (53 - d)) as E2
    by (rewrite <- Z.pow_add_r by lia; f_equal; lia).
  pose proof (Z.pow_pos_nonneg 2 (53 - d)). nia. }
exists W, (53 - d). replace (- (53 - d)) with (d - 53) by lia.
split; [|split; [lia|split; [done|done]]].
unfold binary_round_aux.
rewrite shr_fexp_53 by lia. cbn [shr_record_of_loc shr_m loc_of_shr_record round_nearest_even].
rewrite shr_fexp_53 by lia. cbn [shr_record_of_loc shr_m].
assert ((d - 53 <=? emax - prec) = true) as -> by (apply Z.leb_le; unfold emax, prec; lia).
reflexivity.
Qed.

Lemma div_normal W H e1 e2 :
2 ^ 52 <= Z.pos W < 2 ^ 53 -> 2 ^ 52 <= Z.pos H < 2 ^ 53 ->
-52 <= e1 <= 0 -> -52 <= e2 <= 0 ->
exists m j,
  div (S754_finite false W e1) (S754_finite false H e2)
    = S754_finite false m (e1 - e2 - 53 + j) /\
  0 <= j <= 2 /\ 2 ^ 52 <= Z.pos m < 2 ^ 53 /\
  Z.abs (2 * (Z.pos W * 2 ^ 53) - 2 * (Z.pos m * 2 ^ j) * Z.pos H) <= 2 ^ j * Z.pos H.
Proof.
intros HW HH He1 He2. unfold div, SFdiv, SFdiv_core_binary.
rewrite !(Zdigits2_bounds _ 53) by (simpl; lia).
replace (fexp prec emax (53 + e1 - (53 + e2))) with (e1 - e2 - 53)
  by (unfold fexp, emin, prec, emax; lia).
replace (Z.min (e1 - e2 - 53) (e1 - e2)) with (e1 - e2 - 53) by lia.
replace (e1 - e2 - (e1 - e2 - 53)) with 53 by lia.
rewrite Z.shiftl_mul_pow2 by lia.
pose proof (Z_div_mod (Z.pos W * 2 ^ 53) (Z.pos H) ltac:(lia)) as Hdm.
destruct (Z.div_eucl (Z.pos W * 2 ^ 53) (Z.pos H)) as [q r].
destruct Hdm as [Hq Hr]. cbn [xorb].
assert (2 ^ 52 <= q < 2 ^ 54) as Hqr by nia.
destruct (binary_round_aux_near false q (e1 - e2 - 53) (new_location (Z.pos H) r) (Z.pos H) r)
  as (m & j & Hres & Hj & Hm & Hbr); try lia.
{ apply new_location_ok; lia. }
exists m, j. rewrite Hres. split; [done|]. split; [done|]. split; [done|].
rewrite Hq. replace (Z.pos H * q + r) with (q * Z.pos H + r) by lia. done.
Qed.


Lemma abs_le_cancel K x y : 0 < K -> Z.abs (K * x) <= K * y -> Z.abs x <= y.
Proof. intros HK. rewrite Z.abs_mul, (Z.abs_eq K) by lia. nia. Qed.

Lemma div_of_int_near w h :
0 < w < 2 ^ 53 -> 0 < h < 2 ^ 53 ->
exists m e, div (of_int w) (of_int h) = S754_finite false m e /\
  2 ^ 52 <= Z.pos m < 2 ^ 53 /\ near w h (Z.pos m) e.
Proof.
intros Hw Hh.
destruct (of_int_pos w Hw) as (W & a & -> & Ha & HW & HWr).
destruct (of_int_pos h Hh) as (H & b & -> & Hb & HH & HHr).
destruct (div_normal W H (- a) (- b)) as (m & j & -> & Hj & Hm & Hbr); try lia.
exists m, (- a - - b - 53 + j). split; [done|]. split; [done|].
rewrite HW, HH in Hbr. unfold near.
set (e := - a - - b - 53 + j).
pose proof (Z.pow_pos_nonneg 2 (a + 53) ltac:(lia) ltac:(lia)) as Hp1.
pose proof (Z.pow_pos_nonneg 2 (b + j) ltac:(lia) ltac:(lia)) as Hp2.
assert (2 ^ a * 2 ^ 53 = 2 ^ (a + 53)) as Ea by (rewrite Z.pow_add_r by lia; done).
assert (2 ^ j * 2 ^ b = 2 ^ (b + j)) as Eb by (rewrite Z.pow_add_r by lia; lia).
replace (2 * (w * 2 ^ a * 2 ^ 53) - 2 * (Z.pos m * 2 ^ j) * (h * 2 ^ b))
  with (2 * w * (2 ^ a * 2 ^ 53) - 2 * Z.pos m * h * (2 ^ j * 2 ^ b)) in Hbr by ring.
replace (2 ^ j * (h * 2 ^ b)) with (h * (2 ^ j * 2 ^ b)) in Hbr by ring.
rewrite Ea, Eb in Hbr.
destruct (Z.leb_spec 0 e) as [Hpos|Hneg].
- assert (2 ^ (b + j) = 2 ^ e * 2 ^ (a + 53)) as E
    by (rewrite <- Z.pow_add_r by lia; f_equal; lia).
  apply (abs_le_cancel (2 ^ (a + 53))); [done|].
  rewrite E in Hbr.
  replace (2 ^ (a + 53) * (2 * w - 2 * Z.pos m * 2 ^ e * h))
    with (2 * w * 2 ^ (a + 53) - 2 * Z.pos m * h * (2 ^ e * 2 ^ (a + 53))) by ring.
  replace (2 ^ (a + 53) * (2 ^ e * h)) with (h * (2 ^ e * 2 ^ (a + 53))) by ring.
  exact Hbr.
- assert (2 ^ (a + 53) = 2 ^ (- e) * 2 ^ (b + j)) as E
    by (rewrite <- Z.pow_add_r by lia; f_equal; lia).
  apply (abs_le_cancel (2 ^ (b + j))); [done|].
  rewrite E in Hbr.
  replace (2 ^ (b + j) * (2 * w * 2 ^ (- e) - 2 * Z.pos m * h))
    with (2 * w * (2 ^ (- e) * 2 ^ (b + j)) - 2 * Z.pos m * h * 2 ^ (b + j)) by ring.
  rewrite (Z.mul_comm (2 ^ (b + j)) h). exact Hbr.
Qed.

Lemma ltb_finite_pos m1 e1 m2 e2 :
ltb (S754_finite false m1 e1) (S754_finite false m2 e2) = true <->
e1 < e2 \/ (e1 = e2 /\ Z.pos m1 < Z.pos m2).
Proof.
unfold ltb, SFltb, SFcompare.
destruct (Z.compare_spec e1 e2) as [->|Hlt|Hgt].
- change (Pos.compare_cont Eq m1 m2) with (Pos.compare m1 m2).
  destruct (Pos.compare_spec m1 m2) as [->|Hlt|Hgt]; split; intros; try done; try lia.
- split; [left; done|done].
- split; [done|lia].
Qed.

(** Cross-multiplication steps used to compare [w / h] with [a / b]. *)
Lemma cross_le a b Q K h w :
0 < Q -> 0 <= h -> 0 <= b -> K * h <= w * Q -> a * Q <= b * K -> a * h <= b * w.
Proof.
intros HQ Hh Hb H1 H2.
apply (Z.mul_le_mono_nonneg_l _ _ b) in H1; [|done].
apply (Z.mul_le_mono_nonneg_r _ _ h) in H2; [|done].
apply (Z.mul_le_mono_pos_r _ _ Q); [done|]. lia.
Qed.

Lemma cross_lt a b Q K h w :
0 < Q -> 0 < h -> 0 <= b -> K * h <= w * Q -> a * Q < b * K -> a * h < b * w.
Proof.
intros HQ Hh Hb H1 H2.
apply (Z.mul_le_mono_nonneg_l _ _ b) in H1; [|done].
apply (Z.mul_lt_mono_pos_r h) in H2; [|done].
apply (Z.mul_lt_mono_pos_r Q); [done|]. lia.
Qed.

Lemma cross_lt_r a b Q K h w :
0 < Q -> 0 < h -> 0 <= b -> w * Q <= K * h -> b * K < a * Q -> b * w < a * h.
Proof.
intros HQ Hh Hb H1 H2.
apply (Z.mul_le_mono_nonneg_l _ _ b) in H1; [|done].
apply (Z.mul_lt_mono_pos_r h) in H2; [|done].
apply (Z.mul_lt_mono_pos_r Q); [done|]. lia.
Qed.

(** A fraction [w / h] with a small denominator cannot fall strictly between
  [a / b] and a bound [K / Q] that is close to it. *)
Lemma margin a b Q K h w B :
0 < Q -> 0 < h < B -> 0 <= b -> w * Q <= K * h -> a * Q < b * K ->
(b * K - a * Q) * B <= Q -> ~ a * h < b * w.
Proof.
intros HQ Hh Hb H1 H2 H3 Hc.
apply (Z.mul_le_mono_nonneg_l _ _ b) in H1; [|done].
assert ((a * h + 1) * Q <= b * w * Q) by (apply Z.mul_le_mono_nonneg_r; lia).
assert ((b * K - a * Q) * h < (b * K - a * Q) * B) by (apply Z.mul_lt_mono_pos_l; lia).
lia.
Qed.

Lemma margin_r a b Q K h w B :
0 < Q -> 0 < h < B -> 0 <= b -> K * h <= w * Q -> b * K < a * Q ->
(a * Q - b * K) * B <= Q -> ~ b * w < a * h.
Proof.
intros HQ Hh Hb H1 H2 H3 Hc.
apply (Z.mul_le_mono_nonneg_l _ _ b) in H1; [|done].
assert ((b * w + 1) * Q <= a * h * Q) by (apply Z.mul_le_mono_nonneg_r; lia).
assert ((a * Q - b * K) * h < (a * Q - b * K) * B) by (apply Z.mul_lt_mono_pos_l; lia).
lia.
Qed.

Section Thresholds.
Variables (Mc : positive) (n0 a b : Z).
Hypothesis Hn0 : 1 <= n0.
Hypothesis Ha : 0 < a.
Hypothesis Hb : 0 < b.
Let Q := 2 ^ n0.

Variables (w h m e : Z).
Hypothesis Hw : 0 <= w.
Hypothesis Hh : 0 < h < 2 ^ 46.
Hypothesis Hm : 2 ^ 52 <= m < 2 ^ 53.
Hypothesis Hnear : near w h m e.

Local Lemma Q_ge_2 : 2 <= Q.
Proof. subst Q. change 2 with (2 ^ 1) at 1. apply Z.pow_le_mono_r; lia. Qed.

(** Exponent above the constant's: the quotient is at least [(2 ^ 53 - 1) / Q]. *)
Local Lemma above : - n0 < e -> (2 ^ 53 - 1) * h <= w * Q.
Proof.
intros He. pose proof Q_ge_2 as HQ. unfold near in Hnear.
assert (2 ^ 52 * h <= m * h) as Hmh by (apply Z.mul_le_mono_nonneg_r; lia).
destruct (Z.leb_spec 0 e) as [Hpos|Hneg].
- pose proof (Z.pow_pos_nonneg 2 e ltac:(lia) Hpos) as HP.
set (P := 2 ^ e) in *.
assert (m * h * 1 <= m * h * P) by (apply Z.mul_le_mono_nonneg_l; lia).
assert (h * 1 <= h * P) by (apply Z.mul_le_mono_nonneg_l; lia).
assert ((2 * m - 1) * h * 1 <= (2 * m - 1) * h * P)
  by (apply Z.mul_le_mono_nonneg_l; lia).
assert (w * 2 <= w * Q) by (apply Z.mul_le_mono_nonneg_l; lia).
lia.
- assert (2 * 2 ^ (- e) <= Q) as HPQ.
{ subst Q. rewrite <- Z.pow_succ_r by lia. apply Z.pow_le_mono_r; lia. }
set (P := 2 ^ (- e)) in *.
assert (w * (2 * P) <= w * Q) by (apply Z.mul_le_mono_nonneg_l; lia).
lia.
Qed.

(** Exponent below the constant's: the quotient is at most [(2 ^ 54 - 1) / (4 * Q)]. *)
Local Lemma below : e < - n0 -> w * (4 * Q) <= (2 ^ 54 - 1) * h.
Proof.
intros He. unfold near in Hnear.
destruct (Z.leb_spec 0 e) as [Hpos|Hneg]; [lia|].
assert (2 * Q <= 2 ^ (- e)) as HPQ.
{ subst Q. rewrite <- Z.pow_succ_r by lia. apply Z.pow_le_mono_r; lia. }
set (P := 2 ^ (- e)) in *.
assert (m * h <= (2 ^ 53 - 1) * h) by (apply Z.mul_le_mono_nonneg_r; lia).
assert (w * (2 * Q) <= w * P) by (apply Z.mul_le_mono_nonneg_l; lia).
lia.
Qed.

(** Same exponent: the quotient is within half a unit of [m / Q]. *)
Local Lemma level : e = - n0 -> (2 * m - 1) * h <= w * (2 * Q) <= (2 * m + 1) * h.
Proof.
intros He. unfold near in Hnear.
destruct (Z.leb_spec 0 e) as [Hpos|Hneg]; [lia|].
rewrite He, Z.opp_involutive in Hnear. fold Q in Hnear. lia.
Qed.

(** [c < round (w / h)] agrees with [a / b < w / h] when the constant
[c = Mc * 2 ^ - n0] is [a / b] rounded and [h] is small enough for
[w / h] to stay clear of the rounding boundary. *)
Lemma gt_const :
a * Q < b * (2 ^ 53 - 1) ->
b * (2 ^ 54 - 1) <= a * (4 * Q) ->
a * (2 * Q) < b * (2 * Z.pos Mc + 1) ->
(b * (2 * Z.pos Mc + 1) - a * (2 * Q)) * 2 ^ 46 <= 2 * Q ->
forall m', Z.pos m' = m ->
ltb (S754_finite false Mc (- n0)) (S754_finite false m' e) = true <-> a * h < b * w.
Proof.
intros S1 S2 S3 S4 m' Hm'. rewrite ltb_finite_pos, Hm'.
pose proof Q_ge_2 as HQ.
destruct (Z.lt_trichotomy e (- n0)) as [Hlt|[Heq|Hgt]].
- pose proof (below Hlt) as Hbel.
split; [intros [?|[? _]]; lia|intros Hr; exfalso].
assert (b * w <= a * h); [|lia].
apply (cross_le b a (2 ^ 54 - 1) (4 * Q)); lia.
- destruct (level Heq) as [Hlo Hhi].
split.
+ intros [?|[_ Hc]]; [lia|].
  apply (cross_lt a b (2 * Q) (2 * Z.pos Mc + 1)); try lia.
  assert ((2 * Z.pos Mc + 1) * h <= (2 * m - 1) * h)
    by (apply Z.mul_le_mono_nonneg_r; lia).
  lia.
+ intros Hr. right. split; [lia|].
  destruct (Z_lt_ge_dec (Z.pos Mc) m) as [|Hge]; [done|exfalso].
  apply (margin a b (2 * Q) (2 * Z.pos Mc + 1) h w (2 ^ 46)); try lia.
  assert ((2 * m + 1) * h <= (2 * Z.pos Mc + 1) * h)
    by (apply Z.mul_le_mono_nonneg_r; lia).
  lia.
- pose proof (above Hgt) as Habo.
split; [intros _|intros _; left; lia].
apply (cross_lt a b Q (2 ^ 53 - 1)); lia.
Qed.

(** The mirror image: [round (w / h) < c] agrees with [w / h < a / b]. *)
Lemma lt_const :
a * Q <= b * (2 ^ 53 - 1) ->
b * (2 ^ 54 - 1) < a * (4 * Q) ->
b * (2 * Z.pos Mc - 1) < a * (2 * Q) ->
(a * (2 * Q) - b * (2 * Z.pos Mc - 1)) * 2 ^ 46 <= 2 * Q ->
forall m', Z.pos m' = m ->
ltb (S754_finite false m' e) (S754_finite false Mc (- n0)) = true <-> b * w < a * h.
Proof.
intros S1 S2 S3 S4 m' Hm'. rewrite ltb_finite_pos, Hm'.
pose proof Q_ge_2 as HQ.
destruct (Z.lt_trichotomy e (- n0)) as [Hlt|[Heq|Hgt]].
- pose proof (below Hlt) as Hbel.
split; [intros _|intros _; left; lia].
apply (cross_lt_r a b (4 * Q) (2 ^ 54 - 1)); lia.
- destruct (level Heq) as [Hlo Hhi].
split.
+ intros [?|[_ Hc]]; [lia|].
  apply (cross_lt_r a b (2 * Q) (2 * Z.pos Mc - 1)); try lia.
  assert ((2 * m + 1) * h <= (2 * Z.pos Mc - 1) * h)
    by (apply Z.mul_le_mono_nonneg_r; lia).
  lia.
+ intros Hr. right. split; [lia|].
  destruct (Z_lt_ge_dec m (Z.pos Mc)) as [|Hge]; [done|exfalso].
  apply (margin_r a b (2 * Q) (2 * Z.pos Mc - 1) h w (2 ^ 46)); try lia.
  assert ((2 * Z.pos Mc - 1) * h <= (2 * m - 1) * h)
    by (apply Z.mul_le_mono_nonneg_r; lia).
  lia.
- pose proof (above Hgt) as Habo.
split; [intros [?|[? _]]; lia|intros Hr; exfalso].
assert (a * h <= b * w); [|lia].
apply (cross_le a b Q (2 ^ 53 - 1)); lia.
Qed.
End Thresholds.
End Rounding.

(** The four constants are the quotients 17/10, 18/10, 55/100 and 57/100
    rounded to nearest. *)
Lemma constants_rounded :
  Float64.c1_7 = Float64.div (Float64.of_int 17) (Float64.of_int 10) /\
  Float64.c1_8 = Float64.div (Float64.of_int 18) (Float64.of_int 10) /\
  Float64.c0_55 = Float64.div (Float64.of_int 55) (Float64.of_int 100) /\
  Float64.c0_57 = Float64.div (Float64.of_int 57) (Float64.of_int 100).
Proof. vm_compute. repeat split. Qed.

(** ** The classification of a probed stream *)

Section Classification.
Import Float64.

Lemma binary_round_aux_sign s m e l :
  match binary_round_aux prec emax s m e l with
  | S754_zero s' | S754_infinity s' | S754_finite s' _ _ => s' = s
  | S754_nan => True
  end.
Proof.
  unfold binary_round_aux.
  destruct (shr_fexp prec emax m e l) as [mrs' e'].
  destruct (shr_fexp prec emax _ e' loc_Exact) as [mrs'' e''].
  destruct (shr_m mrs''); [done| |done].
  by destruct (e'' <=? emax - prec).
Qed.

Lemma ltb_notPositive mc ec x :
  notPositive x -> ltb (S754_finite false mc ec) x = false.
Proof. destruct x as [| | |s m e]; simpl; intros H; try done; by subst. Qed.

Lemma of_int_neg p : notPositive (of_int (Z.neg p)).
Proof.
  unfold of_int, binary_normalize, binary_round.
  destruct (shl_align _ _ _) as [mz ez].
  pose proof (binary_round_aux_sign true (Z.pos mz) ez loc_Exact) as H.
  by destruct (binary_round_aux _ _ _ _ _ _).
Qed.

Lemma div_notPositive x H e :
  notPositive x -> notPositive (div x (S754_finite false H e)).
Proof.
  destruct x as [s|s| |s m ex]; simpl; intros Hx; try done.
  - by subst.
  - by subst.
  - subst s. unfold div, SFdiv.
    destruct (SFdiv_core_binary _ _ _ _ _ _) as [[mz ez] lz]. cbn [xorb].
    pose proof (binary_round_aux_sign true mz ez lz) as Hs.
    by destruct (binary_round_aux _ _ _ _ _ _).
Qed.

(** The four comparisons of [aspectRatio], on the exact quotient. *)
Lemma ratio_comparisons w h :
  0 < w < 2 ^ 53 -> 0 < h < 2 ^ 46 ->
  let ratio := div (of_int w) (of_int h) in
  (ltb c1_7 ratio = true <-> 17 * h < 10 * w) /\
  (ltb ratio c1_8 = true <-> 10 * w < 18 * h) /\
  (ltb c0_55 ratio = true <-> 55 * h < 100 * w) /\
  (ltb ratio c0_57 = true <-> 100 * w < 57 * h).
Proof.
  intros Hw Hh.
  destruct (div_of_int_near w h) as (m & e & -> & Hm & Hnear); [lia|lia|].
  cbv zeta. unfold c1_7, c1_8, c0_55, c0_57.
  split; [|split; [|split]].
  - apply (gt_const 7656119366529843 52 17 10) with (m := Z.pos m);
      try done; try lia; by vm_compute.
  - apply (lt_const 8106479329266893 52 18 10) with (m := Z.pos m);
      try done; try lia; by vm_compute.
  - apply (gt_const 4953959590107546 53 55 100) with (m := Z.pos m);
      try done; try lia; by vm_compute.
  - apply (lt_const 5134103575202365 53 57 100) with (m := Z.pos m);
      try done; try lia; by vm_compute.
Qed.

Lemma bool_eq_ltb (b : bool) (x y : Z) : (b = true <-> x < y) -> b = (x <? y).
Proof.
  intros [H1 H2]. destruct (Z.ltb_spec x y) as [Hlt|Hge].
  - by apply H2.
  - destruct b; [|done]. specialize (H1 eq_refl). lia.
Qed.

Lemma eqb_finite_zero s m e : eqb (S754_finite s m e) zero = false.
Proof. by destruct s. Qed.

(** The prefix as a function of the exact ratio, for streams of moderate
    size. *)
Lemma classification_cases w h rest :
  0 < h < 2 ^ 46 -> w < 2 ^ 53 ->
  classification {| Streams := {| Width := w; Height := h |} :: rest |} =
  if (17 * h <? 10 * w) && (10 * w <? 18 * h) then "landscape"
  else if (55 * h <? 100 * w) && (100 * w <? 57 * h) then "portrait"
  else "other".
Proof.
  intros Hh Hw. unfold classification, aspectRatio. cbn [Streams Width Height].
  destruct (of_int_pos h) as (H & b & EH & _); [lia|].
  rewrite EH at 1. rewrite eqb_finite_zero.
  destruct (Z.lt_trichotomy w 0) as [Hneg|[->|Hpos]].
  - destruct w as [|p|p]; try lia. rewrite EH.
    assert (notPositive (div (of_int (Z.neg p)) (S754_finite false H (- b)))) as Hn.
    { apply div_notPositive, of_int_neg. }
    unfold c1_7, c0_55. rewrite !ltb_notPositive by done. cbn [andb].
    assert ((17 * h <? 10 * Z.neg p) = false) as -> by (apply Z.ltb_ge; lia).
    assert ((55 * h <? 100 * Z.neg p) = false) as -> by (apply Z.ltb_ge; lia).
    reflexivity.
  - rewrite EH. assert ((17 * h <? 10 * 0) = false) as -> by (apply Z.ltb_ge; lia).
    assert ((55 * h <? 100 * 0) = false) as -> by (apply Z.ltb_ge; lia).
    reflexivity.
  - destruct (ratio_comparisons w h) as (H1 & H2 & H3 & H4); [lia|lia|].
    cbv zeta in H1, H2, H3, H4.
    rewrite (bool_eq_ltb _ _ _ H1), (bool_eq_ltb _ _ _ H2),
      (bool_eq_ltb _ _ _ H3), (bool_eq_ltb _ _ _ H4).
    destruct (_ && _); [reflexivity|]. destruct (_ && _); reflexivity.
Qed.

Lemma getVideoAspectRatio_unmarshalled env filePath st src probeOutput :
  disk (world st) !! filePath = Some src ->
  exec_ffprobe env src = Unmarshalled probeOutput ->
  exists st', getVideoAspectRatio env filePath st
              = (Next (aspectRatio probeOutput, None), st').
Proof.
  intros Hd Hp. unfold getVideoAspectRatio, runFfprobe.
  cbv beta iota zeta delta [mbind mret Handler_bind Handler_ret bind pure emit getWorld].
  cbn [world]. rewrite Hd, Hp. eauto.
Qed.

(** C1, as amended: for a decoded probe output, [getVideoAspectRatio]
    succeeds and the prefix derived from its result is [other] when there is
    no stream or the first stream has height 0; and for a first stream with
    0 < height < 2^46 and width < 2^53 the prefix is [landscape] exactly when
    1.70 < width/height < 1.80, [portrait] exactly when
    0.55 < width/height < 0.57, and [other] otherwise. *)
Theorem classification_by_ratio env filePath st src probeOutput :
  disk (world st) !! filePath = Some src ->
  exec_ffprobe env src = Unmarshalled probeOutput ->
  exists ar st',
    getVideoAspectRatio env filePath st = (Next (ar, None), st') /\
    match Streams probeOutput with
    | [] => s3KeyPrefix ar = "other"
    | {| Width := w; Height := h |} :: _ =>
        (h = 0 -> s3KeyPrefix ar = "other") /\
        (0 < h < 2 ^ 46 -> w < 2 ^ 53 ->
           (s3KeyPrefix ar = "landscape" <-> 17 * h < 10 * w < 18 * h) /\
           (s3KeyPrefix ar = "portrait" <-> 55 * h < 100 * w < 57 * h) /\
           (s3KeyPrefix ar = "other" <->
              ~ 17 * h < 10 * w < 18 * h /\ ~ 55 * h < 100 * w < 57 * h))
    end.
Proof.
  intros Hd Hp.
  destruct (getVideoAspectRatio_unmarshalled env filePath st src probeOutput Hd Hp)
    as [st' Hrun].
  exists (aspectRatio probeOutput), st'. split; [done|].
  destruct probeOutput as [[|[w h] rest]]; cbn [Streams]; [reflexivity|].
  split.
  - intros ->. reflexivity.
  - intros Hh Hw. fold (classification {| Streams := {| Width := w; Height := h |} :: rest |}).
    rewrite (classification_cases w h rest Hh Hw).
    destruct (Z.ltb_spec (17 * h) (10 * w)), (Z.ltb_spec (10 * w) (18 * h)),
      (Z.ltb_spec (55 * h) (100 * w)), (Z.ltb_spec (100 * w) (57 * h));
      cbn [andb]; repeat split; intros; try done; try lia.
Qed.

(** At 3400000000000012 by 2000000000000007 the ratio is above 1.70 and
    below 1.80, and the prefix is not [landscape]: the quotient rounds to
    the constant [1.7] itself. *)
Lemma classification_by_ratio_counterexample :
  ~ (classification
       {| Streams := [{| Width := 3400000000000012; Height := 2000000000000007 |}] |}
       = "landscape" <->
     17 * 2000000000000007 < 10 * 3400000000000012 < 18 * 2000000000000007).
Proof.
  intros [_ H].
  assert (classification
            {| Streams := [{| Width := 3400000000000012; Height := 2000000000000007 |}] |}
          = "other") as E by (by vm_compute).
  rewrite E in H. discriminate H. lia.
Qed.

Lemma classification_by_ratio_witness :
  exists ar st',
    getVideoAspectRatio (Sample.request "alice" Sample.mp4 Sample.faststart)
      "/tmp/tubely-upload-1.mp4"
      {| world := setDisk {[ "/tmp/tubely-upload-1.mp4" := content Sample.mp4 ]} Sample.world;
         trace := []; deferred := [] |}
    = (Next (ar, None), st') /\
    s3KeyPrefix ar = "landscape".
Proof.
  destruct (classification_by_ratio
              (Sample.request "alice" Sample.mp4 Sample.faststart)
              "/tmp/tubely-upload-1.mp4"
              {| world := setDisk {[ "/tmp/tubely-upload-1.mp4" := content Sample.mp4 ]}
                            Sample.world;
                 trace := []; deferred := [] |}
              (content Sample.mp4) Sample.stream1080p)
    as (ar & st' & Hrun & Hcls).
  - reflexivity.
  - reflexivity.
  - exists ar, st'. split; [exact Hrun|].
    cbn [Sample.stream1080p Streams] in Hcls. destruct Hcls as [_ Hcls].
    apply Hcls; lia.
Defined.
End Classification.

(** ** Strings and the key token *)

Lemma string_length_app (a b : string) :
  String.length (a +:+ b) = (String.length a + String.length b)%nat.
Proof. induction a as [|c a IH]; simpl; [done|]. by rewrite IH. Qed.

Lemma processing_ne (s : string) : s +:+ ".processing" ≠ s.
Proof.
  intros H. apply (f_equal String.length) in H.
  rewrite string_length_app in H. simpl in H. lia.
Qed.

Lemma prefix_refl_app (a b : string) : String.prefix a (a +:+ b) = true.
Proof.
  induction a as [|c a IH]; simpl; [by destruct b|].
  destruct (ascii_dec c c); [done|congruence].
Qed.

Lemma prefix_app_app (a b c : string) : String.prefix (a +:+ b) (a +:+ b +:+ c) = true.
Proof.
  induction a as [|x a IH]; [exact (prefix_refl_app b c)|].
  simpl. destruct (ascii_dec x x); [done|congruence].
Qed.

Lemma contains_prefix (s substr : string) :
  String.prefix substr s = true -> strings_Contains s substr = true.
Proof. intros H. destruct s; simpl in *; by rewrite H. Qed.

Lemma contains_app (a s b : string) : strings_Contains (a +:+ s +:+ b) s = true.
Proof.
  induction a as [|c a IH].
  - exact (contains_prefix _ _ (prefix_refl_app s b)).
  - simpl. rewrite IH. apply orb_true_r.
Qed.

Lemma list_ind3 {A} (P : list A -> Prop) :
  P [] -> (forall a, P [a]) -> (forall a b, P [a; b]) ->
  (forall a b c l, P l -> P (a :: b :: c :: l)) ->
  forall l, P l.
Proof.
  intros H0 H1 H2 H3 l.
  assert (P l /\ (forall a, P (a :: l)) /\ (forall a b, P (a :: b :: l))) as [H _].
  { induction l as [|x l (IH0 & IH1 & IH2)]; [by auto|].
    split; [apply IH1|]. split; [intros a; apply IH2|]. intros a b. by apply H3. }
  exact H.
Qed.

Lemma EncodeToString_length (src : bytes) :
  String.length (base64.EncodeToString src) = ((4 * length src + 2) / 3)%nat.
Proof.
  induction src as [|a|a b|a b c l IH] using list_ind3; try reflexivity.
  cbn [base64.EncodeToString String.length length]. rewrite IH.
  replace (4 * S (S (S (length l))) + 2)%nat with (4 * length l + 2 + 4 * 3)%nat by lia.
  rewrite Nat.div_add by lia. lia.
Qed.

Lemma tokenOf_length env : String.length (tokenOf env) = 43%nat.
Proof.
  unfold tokenOf. rewrite EncodeToString_length.
  rewrite length_take, length_app, length_replicate.
  replace (32 `min` (length (rand_Read env).1 + 32))%nat with 32%nat by lia.
  reflexivity.
Qed.

(** ** Running a handler on an arbitrary request *)

Ltac unfold_handler :=
  cbv beta iota zeta delta
    [mbind mret Handler_bind Handler_ret bind pure failIf reportIf
     respondWithError respondWithJSON emit defer getWorld setWorld
     GetVideo UpdateVideo FormFile CreateTemp Create Copy Seek runFfmpeg
     runFfprobe randRead32 Open PutObject readFile return_ panic
     processVideoForFastStart getVideoAspectRatio setDisk setDb setS3
     s3Bucket s3Region assetsRoot port uuid_Parse auth_GetBearerToken
     auth_ValidateJWT r_ParseMultipartForm r_FormFile mime_ParseMediaType
     os_CreateTemp os_Create io_Copy tempFile_Seek exec_ffmpeg exec_ffprobe
     rand_Read s3Client_PutObject db_UpdateVideo];
  cbn [fst snd app world trace deferred setDisk setDb setS3 db disk s3].

Ltac run_step :=
  match goal with
  | H : ?x = _ |- context [match ?x with _ => _ end] => rewrite H
  | |- context [<[?k := ?v]> ?m !! ?k] => rewrite (lookup_insert_eq m k v)
  | |- context [<[?k := ?v]> ?m !! ?k'] =>
      rewrite (lookup_insert_ne m k k' v)
        by (first [apply processing_ne | apply not_eq_sym, processing_ne])
  | |- context [bool_decide ?P] => destruct (bool_decide_reflect P)
  | |- context [match ?x with _ => _ end] =>
      lazymatch x with
      | context [match _ with _ => _ end] => fail
      | _ => destruct x eqn:?
      end
  end;
  unfold_handler.

(** Evaluate [serve h w] along every path of the handler; each goal left
    is the statement at the final state of one path. *)
Ltac run_handler :=
  cbv zeta; unfold serve, setDisk, setDb, setS3;
  match goal with
  | |- context [snd (?h ?init)] =>
      let flow := fresh "flow" in
      let st := fresh "st" in
      let Hrun := fresh "Hrun" in
      destruct (h init) as [flow st] eqn:Hrun; revert Hrun
  end;
  unfold_handler; repeat run_step;
  (intros [= <- <-]);
  cbn [fst snd app world trace deferred setDisk setDb setS3 db disk s3
       fold_left runDeferred flat_map forallb andb errorIsFinal isCleanup In
       responsesOf errorsOf putObjectsOf updatesOf probesOf transcodesOf createdOf];
  unfold setDisk; cbn [db disk s3].

(** Close a goal whose hypothesis [H] places an event in a trace that does
    not hold it. *)
Ltac absurd_in H :=
  solve [repeat (destruct H as [H|H]; [discriminate H|]); destruct H].

(** ** C2: a failure ends the request *)

(** In the second listing every error response is the last thing the
    handler does before its deferred clean-up, and the store is as it was. *)
Lemma FastStart_error_is_final env w :
  let st := serve (FastStart.handlerUploadVideo env) w in
  errorIsFinal (trace st) = true /\
  (errorsOf (trace st) <> [] -> db (world st) = db w).
Proof.
  destruct env, w. unfold FastStart.handlerUploadVideo.
  run_handler; (split; [reflexivity|]); done.
Qed.

Lemma RandomName_error_is_final env w :
  let st := serve (RandomName.handlerUploadThumbnail env) w in
  errorIsFinal (trace st) = true /\
  (errorsOf (trace st) <> [] -> db (world st) = db w).
Proof.
  destruct env, w. unfold RandomName.handlerUploadThumbnail.
  run_handler; (split; [reflexivity|]); done.
Qed.

(** C2, at the first listing: a caller who does not own the video gets the
    401 response, and the handler goes on to stage the upload, put it in the
    bucket, update the record and answer 200. *)
Theorem Direct_goes_on_after_rejection :
  let st := serve (Direct.handlerUploadVideo
                     (Sample.request "mallory" Sample.mp4 Sample.faststart))
                  Sample.world in
  let url := "https://tubely.s3.us-east-2.amazonaws.com/AAAAAAAAAAAAAAAAAAAAAAAAAAAAAAAAAAAAAAAAAAA.mp4" in
  responsesOf (trace st) =
    [EvRespondWithError 401 "You are not authorized to upload this video" None;
     EvRespondWithJSON 200 (setVideoURL url Sample.video)] /\
  errorIsFinal (trace st) = false /\
  createdOf (trace st) = ["/tmp/tubely-upload-1.mp4"] /\
  updatesOf (trace st) = [setVideoURL url Sample.video] /\
  db (world st) !! ID Sample.video = Some (setVideoURL url Sample.video).
Proof. vm_compute. repeat split. Qed.

(** ** C3: the ownership check and the disk *)

(** In the second listing of the video handler a caller who is not the
    owner is turned away right after the record is fetched: nothing else is
    called and the world is untouched. *)
Lemma FastStart_rejects_non_owner env w videoID token userID video :
  uuid_Parse env = (videoID, None) ->
  auth_GetBearerToken env = (token, None) ->
  auth_ValidateJWT env token = (userID, None) ->
  db w !! videoID = Some video ->
  UserID video <> userID ->
  let st := serve (FastStart.handlerUploadVideo env) w in
  trace st = [EvGetVideo videoID;
              EvRespondWithError 401 "You are not authorized to upload this video"
                None] /\
  world st = w.
Proof.
  intros H1 H2 H3 H4 H5. destruct env, w. cbn in H1, H2, H3, H4. subst.
  unfold FastStart.handlerUploadVideo. run_handler; done.
Qed.

(** C3, at the thumbnail handler: for a caller who is not the owner the
    asset file is created and filled before the record is fetched, and it is
    still on disk after the 401 response. *)
Theorem RandomName_writes_before_ownership_check :
  let st := serve (RandomName.handlerUploadThumbnail
                     (Sample.request "mallory" Sample.png Sample.faststart))
                  Sample.world in
  let path := "assets/AAAAAAAAAAAAAAAAAAAAAAAAAAAAAAAAAAAAAAAAAAA.png" in
  trace st =
    [EvFormFile "thumbnail"; EvRandRead; EvCreate path; EvCopy path;
     EvGetVideo (ID Sample.video);
     EvRespondWithError 401
       "You are not authorized to upload a thumbnail for this video" None;
     EvClose (OsFile path); EvClose MultipartFile] /\
  disk Sample.world !! path = None /\
  disk (world st) !! path = Some (content Sample.png) /\
  db (world st) !! ID Sample.video = Some Sample.video.
Proof. vm_compute. repeat split. Qed.

(** ** C4: a failing encoder *)

(** When the encoder fails, the request fails with the processing error,
    the staged file is removed, the store and the bucket are as they were,
    and whatever the encoder wrote stays under the processed path. *)
Lemma FastStart_transcoder_failure env w part out e :
  r_FormFile env = inl part ->
  io_Copy env = None ->
  exec_ffmpeg env (content part) = (out, Some e) ->
  let st := serve (FastStart.handlerUploadVideo env) w in
  let tempFile := fst (os_CreateTemp env) in
  transcodesOf (trace st) <> [] ->
  responsesOf (trace st) =
    [EvRespondWithError 500 "Couldn't process video for fast start"
       (Some ("could not run ffmpeg: " +:+ e))] /\
  db (world st) = db w /\ s3 (world st) = s3 w /\
  disk (world st) !! tempFile = None /\
  disk (world st) !! (tempFile +:+ ".processing") =
    match out with
    | Some b => Some b
    | None => disk w !! (tempFile +:+ ".processing")
    end.
Proof.
  intros H1 H2 H3. destruct env, w. cbn in H1, H2, H3. subst.
  unfold FastStart.handlerUploadVideo. run_handler; try done; intros _.
  all: repeat split; rewrite ?lookup_delete_eq; try done.
  all: rewrite lookup_delete_ne by apply not_eq_sym, processing_ne.
  all: rewrite ?lookup_insert_eq; try done.
  all: by rewrite !lookup_insert_ne by apply not_eq_sym, processing_ne.
Qed.

(** C4, at a request whose encoder writes part of its output and exits
    with status 1: the request fails with the processing error, the staged
    file is removed and the record is unchanged, and the partial output is
    still on disk. *)
Theorem FastStart_leaves_partial_output :
  let env := Sample.request "alice" Sample.mp4 Sample.brokenEncoder in
  let st := serve (FastStart.handlerUploadVideo env) Sample.world in
  (exists st', processVideoForFastStart env "/tmp/tubely-upload-1.mp4"
                 {| world := setDisk {[ "/tmp/tubely-upload-1.mp4" := content Sample.mp4 ]}
                               Sample.world;
                    trace := []; deferred := [] |}
               = (Next (EmptyString, Some "could not run ffmpeg: exit status 1"), st')) /\
  responsesOf (trace st) =
    [EvRespondWithError 500 "Couldn't process video for fast start"
       (Some "could not run ffmpeg: exit status 1")] /\
  db (world st) !! ID Sample.video = Some Sample.video /\
  disk (world st) !! "/tmp/tubely-upload-1.mp4" = None /\
  disk Sample.world !! "/tmp/tubely-upload-1.mp4.processing" = None /\
  disk (world st) !! "/tmp/tubely-upload-1.mp4.processing" = Some [x00].
Proof. split; [eexists; vm_compute; reflexivity|]. vm_compute. repeat split. Qed.

(** ** C5: the storage key *)

Lemma landscape_1080p rest :
  classification {| Streams := {| Width := 1920; Height := 1080 |} :: rest |} = "landscape".
Proof. vm_compute. reflexivity. Qed.

(** C5, as amended: after a successful video upload the one object put in
    the bucket has the key [<classification>/<token>.mp4]; the key starts
    with the classification and a slash; the token is the unpadded URL-safe
    base64 text of the 32 random bytes and has 43 characters; and for a
    first stream of 1920 by 1080 the key is [landscape/<token>.mp4]. *)
Theorem storage_key_of_upload env w payload :
  let st := serve (FastStart.handlerUploadVideo env) w in
  responsesOf (trace st) = [EvRespondWithJSON 200 payload] ->
  exists part probeOutput input,
    r_FormFile env = inl part /\
    exec_ffprobe env (content part) = Unmarshalled probeOutput /\
    putObjectsOf (trace st) = [input] /\
    s3 (world st) = s3 w ++ [input] /\
    Key input = classification probeOutput +:+ "/" +:+ tokenOf env +:+ ".mp4" /\
    String.prefix (classification probeOutput +:+ "/") (Key input) = true /\
    String.length (tokenOf env) = 43%nat /\
    (forall rest,
       Streams probeOutput = {| Width := 1920; Height := 1080 |} :: rest ->
       Key input = "landscape/" +:+ tokenOf env +:+ ".mp4").
Proof.
  pose proof (tokenOf_length env) as Hlen. revert Hlen.
  destruct env, w. unfold FastStart.handlerUploadVideo.
  run_handler; intros Hlen Hresp; try discriminate Hresp.
  all: eexists _, _, _; split; [reflexivity|]; split; [eassumption|].
  all: split; [reflexivity|]; split; [reflexivity|]; split; [reflexivity|].
  all: split; [apply (prefix_app_app _ "/")|]; split; [exact Hlen|].
  all: intros rest Hs; cbn [Key].
  all: match goal with
       | |- context [aspectRatio ?po] =>
           fold (classification po); destruct po as [streams];
           cbn in Hs; subst streams
       end.
  all: by rewrite landscape_1080p.
Qed.

Lemma storage_key_of_upload_witness :
  exists input,
    putObjectsOf (trace (serve (FastStart.handlerUploadVideo
                                  (Sample.request "alice" Sample.mp4 Sample.faststart))
                               Sample.world)) = [input] /\
    Key input = "landscape/AAAAAAAAAAAAAAAAAAAAAAAAAAAAAAAAAAAAAAAAAAA.mp4".
Proof.
  destruct (storage_key_of_upload
              (Sample.request "alice" Sample.mp4 Sample.faststart) Sample.world
              (setVideoURL "https://tubely.s3.us-east-2.amazonaws.com/landscape/AAAAAAAAAAAAAAAAAAAAAAAAAAAAAAAAAAAAAAAAAAA.mp4"
                 Sample.video))
    as (part & po & input & _ & _ & Hput & _ & Hkey & _).
  - vm_compute. reflexivity.
  - exists input. split; [exact Hput|].
    vm_compute in Hput. injection Hput as <-. vm_compute. reflexivity.
Defined.

(** The key of the sample 1920 by 1080 upload carries a token of 43
    characters, so it is not [landscape/] followed by 22 characters and
    [.mp4]. *)
Lemma storage_key_of_upload_counterexample :
  ~ (forall input,
       In input (putObjectsOf (trace (serve (FastStart.handlerUploadVideo
                    (Sample.request "alice" Sample.mp4 Sample.faststart))
                  Sample.world))) ->
       exists token, String.length token = 22%nat /\
                     Key input = "landscape/" +:+ token +:+ ".mp4").
Proof.
  intros H.
  destruct (H {| Bucket := "tubely";
                 Key := "landscape/AAAAAAAAAAAAAAAAAAAAAAAAAAAAAAAAAAAAAAAAAAA.mp4";
                 Body := content Sample.mp4; ContentType := "video/mp4" |})
    as (token & Hlen & Hkey).
  - vm_compute. left. reflexivity.
  - apply (f_equal String.length) in Hkey. cbn [Key] in Hkey.
    rewrite !string_length_app, Hlen in Hkey. vm_compute in Hkey. discriminate Hkey.
Qed.

(** ** C6: what the prober reads *)

(** C6: whenever the prober runs, it runs on the staged file, which is also
    the input of the transcoder and not its output; the prefix of every
    uploaded key is the classification of what the prober finds in the bytes
    of the upload; and once the transcoder has succeeded on the staged upload
    the prober does run. *)
Theorem prober_reads_staged_file env w :
  let st := serve (FastStart.handlerUploadVideo env) w in
  let tempFile := fst (os_CreateTemp env) in
  (forall filePath, In filePath (probesOf (trace st)) ->
     filePath = tempFile /\ filePath <> tempFile +:+ ".processing" /\
     transcodesOf (trace st) = [(tempFile, tempFile +:+ ".processing")]) /\
  (forall input, In input (putObjectsOf (trace st)) ->
     exists part probeOutput,
       r_FormFile env = inl part /\
       exec_ffprobe env (content part) = Unmarshalled probeOutput /\
       String.prefix (classification probeOutput +:+ "/") (Key input) = true) /\
  (forall part, r_FormFile env = inl part -> io_Copy env = None ->
     snd (exec_ffmpeg env (content part)) = None ->
     transcodesOf (trace st) <> [] -> probesOf (trace st) = [tempFile]).
Proof.
  destruct env, w. unfold FastStart.handlerUploadVideo.
  run_handler.
  all: split; [|split].
  all: try (intros ? []; fail).
  all: try (intros ? [<-|[]]; split; [reflexivity|];
            split; [apply not_eq_sym, processing_ne|reflexivity]).
  all: try (intros ? [<-|[]]; eexists _, _; split; [reflexivity|];
            split; [eassumption|]; apply (prefix_app_app _ "/")).
  all: intros part Hpart Hcopy Hff Htr; simplify_eq; try done.
  all: match goal with
       | H : ?x = _, Hf : (?x).2 = None |- _ => rewrite H in Hf; by cbn in Hf
       end.
Qed.

Lemma prober_reads_staged_file_witness :
  "/tmp/tubely-upload-1.mp4"
    = fst (os_CreateTemp (Sample.request "alice" Sample.mp4 Sample.faststart)) /\
  "/tmp/tubely-upload-1.mp4" <> "/tmp/tubely-upload-1.mp4.processing".
Proof.
  destruct (proj1 (prober_reads_staged_file
                     (Sample.request "alice" Sample.mp4 Sample.faststart) Sample.world)
              "/tmp/tubely-upload-1.mp4") as (H1 & H2 & _).
  - vm_compute. left. reflexivity.
  - split; [exact H1|exact H2].
Defined.

(** ** C7: the record submitted to the store *)

(** C7: the record a handler submits is the fetched record with the one
    locator replaced, every other field as fetched; and when the request
    fails, before or in the update, the store is as it was. *)
Theorem update_changes_one_locator env w :
  (let st := serve (FastStart.handlerUploadVideo env) w in
   (forall video, In video (updatesOf (trace st)) ->
      exists fetched url,
        db w !! fst (uuid_Parse env) = Some fetched /\
        video = setVideoURL url fetched /\
        ID video = ID fetched /\ UserID video = UserID fetched /\
        ThumbnailURL video = ThumbnailURL fetched /\
        Details video = Details fetched /\ VideoURL video = Some url) /\
   (errorsOf (trace st) <> [] -> db (world st) = db w)) /\
  (let st := serve (RandomName.handlerUploadThumbnail env) w in
   (forall video, In video (updatesOf (trace st)) ->
      exists fetched url,
        db w !! fst (uuid_Parse env) = Some fetched /\
        video = setThumbnailURL url fetched /\
        ID video = ID fetched /\ UserID video = UserID fetched /\
        VideoURL video = VideoURL fetched /\
        Details video = Details fetched /\ ThumbnailURL video = Some url) /\
   (errorsOf (trace st) <> [] -> db (world st) = db w)).
Proof.
  split.
  - destruct env, w. unfold FastStart.handlerUploadVideo.
    run_handler; (split; [|done]).
    all: try (intros ? []; fail).
    all: intros ? [<-|[]]; eexists _, _; split; [reflexivity|]; by repeat split.
  - destruct env, w. unfold RandomName.handlerUploadThumbnail.
    run_handler; (split; [|done]).
    all: try (intros ? []; fail).
    all: intros ? [<-|[]]; eexists _, _; split; [reflexivity|]; by repeat split.
Qed.

Lemma update_changes_one_locator_witness :
  exists fetched url,
    db Sample.world !! ID Sample.video = Some fetched /\
    setVideoURL "https://tubely.s3.us-east-2.amazonaws.com/landscape/AAAAAAAAAAAAAAAAAAAAAAAAAAAAAAAAAAAAAAAAAAA.mp4"
      Sample.video = setVideoURL url fetched.
Proof.
  destruct (proj1 (proj1 (update_changes_one_locator
                            (Sample.request "alice" Sample.mp4 Sample.faststart)
                            Sample.world))
              (setVideoURL "https://tubely.s3.us-east-2.amazonaws.com/landscape/AAAAAAAAAAAAAAAAAAAAAAAAAAAAAAAAAAAAAAAAAAA.mp4"
                 Sample.video))
    as (fetched & url & Hdb & Hv & _).
  - vm_compute. left. reflexivity.
  - exists fetched, url. split; [exact Hdb|exact Hv].
Defined.

(** ** C8: the declared type of a video *)

(** C8, as amended: once the part is read, a header that fails to parse
    gives the 400 response with the fixed message
    [Failed to parse media type]; a header that parses to anything but
    [video/mp4] gives the 400 response whose message contains the parsed
    type; in both cases the world is untouched; and a header that parses
    to [video/mp4] gives no 400 response. *)
Theorem content_type_validation env w part :
  let st := serve (FastStart.handlerUploadVideo env) w in
  r_FormFile env = inl part ->
  In (EvFormFile "video") (trace st) ->
  match mime_ParseMediaType env (partContentType part) with
  | (_, Some err) =>
      responsesOf (trace st) =
        [EvRespondWithError 400 "Failed to parse media type" (Some err)] /\
      world st = w
  | (parsedMediaType, None) =>
      if decide (parsedMediaType = "video/mp4")
      then forall code msg, In (code, msg) (errorsOf (trace st)) -> code = 500
      else
        responsesOf (trace st) =
          [EvRespondWithError 400 (unsupportedVideo parsedMediaType) None] /\
        strings_Contains (unsupportedVideo parsedMediaType) parsedMediaType = true /\
        world st = w
  end.
Proof.
  intros st Hpart. subst st. revert Hpart.
  destruct env, w. unfold FastStart.handlerUploadVideo. cbn [r_FormFile mime_ParseMediaType].
  intros ->.
  run_handler; intros Hin.
  all: try absurd_in Hin.
  all: try done.
  all: try (intros code msg Hc;
            repeat (destruct Hc as [Hc|Hc]; [by injection Hc as <- <-|]);
            destruct Hc).
  all: split; [reflexivity|]; split; [|reflexivity].
  all: apply (contains_app "Unsupported file type: ").
Qed.

Lemma content_type_validation_witness :
  responsesOf (trace (serve (FastStart.handlerUploadVideo
                               (Sample.request "alice" Sample.malformed Sample.faststart))
                            Sample.world))
  = [EvRespondWithError 400 "Failed to parse media type"
       (Some "mime: expected slash after first token")].
Proof.
  pose proof (content_type_validation
                (Sample.request "alice" Sample.malformed Sample.faststart)
                Sample.world Sample.malformed) as H.
  cbv zeta in H.
  assert (mime_ParseMediaType (Sample.request "alice" Sample.malformed Sample.faststart)
            (partContentType Sample.malformed)
          = (EmptyString, Some "mime: expected slash after first token")) as E
    by (vm_compute; reflexivity).
  rewrite E in H. apply H.
  - reflexivity.
  - vm_compute. right. left. reflexivity.
Defined.

(** The header [mp4 video] does not parse, and neither the message of the
    400 response nor the error passed with it contains the header. *)
Lemma content_type_validation_counterexample :
  ~ (forall code msg err,
       In (EvRespondWithError code msg err)
          (responsesOf (trace (serve (FastStart.handlerUploadVideo
                          (Sample.request "alice" Sample.malformed Sample.faststart))
                        Sample.world))) ->
       code = 400 /\
       (strings_Contains msg (partContentType Sample.malformed) = true \/
        exists e, err = Some e /\
                  strings_Contains e (partContentType Sample.malformed) = true)).
Proof.
  intros H.
  destruct (H 400 "Failed to parse media type"
              (Some "mime: expected slash after first token")) as [_ [Hc|(e & He & Hc)]].
  - vm_compute. left. reflexivity.
  - vm_compute in Hc. discriminate Hc.
  - injection He as <-. vm_compute in Hc. discriminate Hc.
Qed.

(** ** C9: the content type of the uploaded object *)

(** C9, as amended: every object put in the bucket carries the
    [Content-Type] header of the part as it was declared, and that header
    parses to [video/mp4]. *)
Theorem uploaded_content_type env w input :
  let st := serve (FastStart.handlerUploadVideo env) w in
  In input (putObjectsOf (trace st)) ->
  exists part,
    r_FormFile env = inl part /\
    ContentType input = partContentType part /\
    mime_ParseMediaType env (partContentType part) = ("video/mp4", None).
Proof.
  destruct env, w. unfold FastStart.handlerUploadVideo.
  run_handler; intros Hin; try (destruct Hin; fail).
  all: destruct Hin as [<-|[]]; eexists; split; [reflexivity|]; split; [reflexivity|].
  all: congruence.
Qed.

Lemma uploaded_content_type_witness :
  exists part,
    inl Sample.mp4WithCodecs = inl (B := error) part /\
    "video/mp4; codecs=avc1" = partContentType part /\
    mime.ParseMediaType (partContentType part) = ("video/mp4", None).
Proof.
  apply (uploaded_content_type
           (Sample.request "alice" Sample.mp4WithCodecs Sample.faststart) Sample.world
           {| Bucket := "tubely";
              Key := "landscape/AAAAAAAAAAAAAAAAAAAAAAAAAAAAAAAAAAAAAAAAAAA.mp4";
              Body := content Sample.mp4WithCodecs;
              ContentType := "video/mp4; codecs=avc1" |}).
  vm_compute. left. reflexivity.
Defined.

(** For the header [video/mp4; codecs=avc1] the validated type is
    [video/mp4], and the object carries the header with its parameter. *)
Lemma uploaded_content_type_counterexample :
  ~ (forall input,
       In input (putObjectsOf (trace (serve (FastStart.handlerUploadVideo
                    (Sample.request "alice" Sample.mp4WithCodecs Sample.faststart))
                  Sample.world))) ->
       ContentType input
       = fst (mime.ParseMediaType (partContentType Sample.mp4WithCodecs))).
Proof.
  intros H.
  specialize (H {| Bucket := "tubely";
                   Key := "landscape/AAAAAAAAAAAAAAAAAAAAAAAAAAAAAAAAAAAAAAAAAAA.mp4";
                   Body := content Sample.mp4WithCodecs;
                   ContentType := "video/mp4; codecs=avc1" |}).
  assert (fst (mime.ParseMediaType (partContentType Sample.mp4WithCodecs)) = "video/mp4")
    as E by (vm_compute; reflexivity).
  rewrite E in H. cbn [ContentType] in H.
  discriminate H. vm_compute. left. reflexivity.
Qed.

(** ** C10: a GIF thumbnail *)

(** The second listing of the thumbnail handler takes the same upload. *)
Lemma ByVideoID_accepts_gif :
  let st := serve (ByVideoID.handlerUploadThumbnail
                     (Sample.request "alice" Sample.gif Sample.faststart))
                  Sample.world in
  createdOf (trace st) = ["assets/4c2b8b1e-0d0c-4c0a-9b57-3d1f6a2e9a10.gif"] /\
  errorsOf (trace st) = [].
Proof. vm_compute. repeat split. Qed.

(** C10: a thumbnail part whose header parses to [image/gif] is answered
    with exactly one error response, of status 400 or 401; once the part is
    read it is the 400 response for an unsupported type (or for a missing
    header); no file is created, no record is submitted and the world is
    untouched; and [getFileExtension] does map [image/gif] to [.gif]. *)
Theorem gif_thumbnail_rejected env w part :
  let st := serve (RandomName.handlerUploadThumbnail env) w in
  r_FormFile env = inl part ->
  mime_ParseMediaType env (partContentType part) = ("image/gif", None) ->
  getFileExtension "image/gif" = (".gif", None) /\
  world st = w /\ createdOf (trace st) = [] /\ updatesOf (trace st) = [] /\
  (exists code msg err,
     responsesOf (trace st) = [EvRespondWithError code msg err] /\
     (code = 400 \/ code = 401)) /\
  (In (EvFormFile "thumbnail") (trace st) ->
   responsesOf (trace st) =
     [EvRespondWithError 400
        (if decide (partContentType part = EmptyString)
         then "Content-Type header is missing"
         else unsupportedImage "image/gif")
        None]).
Proof.
  intros st Hpart Hparse. subst st. revert Hpart Hparse.
  destruct env, w. unfold RandomName.handlerUploadThumbnail.
  cbn [r_FormFile mime_ParseMediaType]. intros -> Hparse.
  split; [reflexivity|].
  run_handler; try done.
  all: try (exfalso; match goal with H : ~ (_ <> _) |- _ => apply H; discriminate end).
  all: split; [reflexivity|]; split; [reflexivity|]; split; [reflexivity|].
  all: split; [eexists _, _, _; split; [reflexivity|]; auto|].
  all: intros Hin; try absurd_in Hin.
  all: done.
Qed.

Lemma gif_thumbnail_rejected_witness :
  responsesOf (trace (serve (RandomName.handlerUploadThumbnail
                               (Sample.request "alice" Sample.gif Sample.faststart))
                            Sample.world))
  = [EvRespondWithError 400
       "Unsupported file type: image/gif. Only JPEG and PNG are allowed." None].
Proof.
  destruct (gif_thumbnail_rejected
              (Sample.request "alice" Sample.gif Sample.faststart)
              Sample.world Sample.gif) as (_ & _ & _ & _ & _ & H).
  - reflexivity.
  - vm_compute. reflexivity.
  - apply H. vm_compute. left. reflexivity.
Defined.

(** * Further properties *)

(** ** The prober and the transcoder on their own *)

(** X1: a frame of exactly 16:9 is [landscape] and one of exactly 9:16 is
    [portrait], at every size up to 2^46 pixels a side. *)
Theorem exact_ratios_classified k rest :
  0 < k -> 16 * k < 2 ^ 46 ->
  classification {| Streams := {| Width := 16 * k; Height := 9 * k |} :: rest |}
    = "landscape" /\
  classification {| Streams := {| Width := 9 * k; Height := 16 * k |} :: rest |}
    = "portrait".
Proof.
  intros Hk Hb. split.
  - rewrite classification_cases by lia.
    assert ((17 * (9 * k) <? 10 * (16 * k)) = true) as -> by (apply Z.ltb_lt; lia).
    assert ((10 * (16 * k) <? 18 * (9 * k)) = true) as -> by (apply Z.ltb_lt; lia).
    reflexivity.
  - rewrite classification_cases by lia.
    assert ((17 * (16 * k) <? 10 * (9 * k)) = false) as -> by (apply Z.ltb_ge; lia).
    assert ((55 * (16 * k) <? 100 * (9 * k)) = true) as -> by (apply Z.ltb_lt; lia).
    assert ((100 * (9 * k) <? 57 * (16 * k)) = true) as -> by (apply Z.ltb_lt; lia).
    reflexivity.
Qed.

Lemma exact_ratios_classified_witness :
  classification {| Streams := [{| Width := 16 * 240; Height := 9 * 240 |}] |}
    = "landscape" /\
  classification {| Streams := [{| Width := 9 * 240; Height := 16 * 240 |}] |}
    = "portrait".
Proof. apply (exact_ratios_classified 240 []); lia. Defined.

(** X2: the classification depends on the ratio only: scaling width and
    height by the same factor does not change it, as long as the sizes stay
    below 2^46. *)
Theorem classification_scale_invariant k w h rest rest' :
  0 < k -> 0 < h -> k * h < 2 ^ 46 -> w < 2 ^ 46 -> k * w < 2 ^ 46 ->
  classification {| Streams := {| Width := k * w; Height := k * h |} :: rest |}
  = classification {| Streams := {| Width := w; Height := h |} :: rest' |}.
Proof.
  intros Hk Hh Hkh Hw Hkw.
  assert (h < 2 ^ 46) by nia.
  rewrite !classification_cases by lia.
  assert (forall a b x y, (a * (k * x) <? b * (k * y)) = (a * x <? b * y)) as E.
  { intros a b x y. destruct (Z.ltb_spec (a * x) (b * y)).
    - apply Z.ltb_lt. nia.
    - apply Z.ltb_ge. nia. }
  by rewrite !E.
Qed.

Lemma classification_scale_invariant_witness :
  classification {| Streams := [{| Width := 2 * 1280; Height := 2 * 720 |}] |}
  = classification {| Streams := [{| Width := 1280; Height := 720 |}] |}.
Proof. apply (classification_scale_invariant 2 1280 720 [] []); lia. Defined.

(** X3: [getVideoAspectRatio] calls the probing tool once, on the path it
    is given, and changes nothing; it returns an error, and the empty
    string, exactly when the file is missing, the tool fails or its output
    does not decode. *)
Theorem getVideoAspectRatio_result env filePath st :
  exists ar err,
    getVideoAspectRatio env filePath st
    = (Next (ar, err),
       {| world := world st; trace := trace st ++ [EvFfprobe filePath];
          deferred := deferred st |}) /\
    (err = None <->
       exists src probeOutput,
         disk (world st) !! filePath = Some src /\
         exec_ffprobe env src = Unmarshalled probeOutput /\
         ar = aspectRatio probeOutput) /\
    (err <> None -> ar = EmptyString).
Proof.
  unfold getVideoAspectRatio, runFfprobe.
  cbv beta iota zeta delta [mbind mret Handler_bind Handler_ret bind pure emit getWorld].
  cbn [world trace deferred].
  destruct (disk (world st) !! filePath) as [src|] eqn:Hd.
  - destruct (exec_ffprobe env src) as [e|e|po] eqn:Hp; eexists _, _;
      (split; [reflexivity|]); split; try done.
    + split; [done|]. intros (src' & po & [= <-] & Hpo & _). congruence.
    + split; [done|]. intros (src' & po & [= <-] & Hpo & _). congruence.
    + split; [intros _|done]. by exists src, po.
  - eexists _, _. split; [reflexivity|]. split; [|done].
    split; [done|]. by intros (src' & po & [=] & _).
Qed.

Lemma getVideoAspectRatio_result_witness :
  exists ar err,
    getVideoAspectRatio (Sample.request "alice" Sample.mp4 Sample.faststart)
      "/tmp/missing.mp4" (initial Sample.world)
    = (Next (ar, err),
       {| world := Sample.world; trace := [EvFfprobe "/tmp/missing.mp4"];
          deferred := [] |}) /\
    ar = EmptyString.
Proof.
  destruct (getVideoAspectRatio_result
              (Sample.request "alice" Sample.mp4 Sample.faststart)
              "/tmp/missing.mp4" (initial Sample.world))
    as (ar & err & Hrun & Hok & Herr).
  exists ar, err. split; [exact Hrun|].
  apply Herr. vm_compute in Hrun. injection Hrun as _ <-. discriminate.
Defined.

(** X4: [processVideoForFastStart] calls the encoder once, from the given
    path to that path with [.processing] appended; on success it returns
    that output path, on failure the empty path; and it leaves the store,
    the bucket and every file but the output as they were, the input
    included. *)
Theorem processVideoForFastStart_result env filePath st :
  exists path err st',
    processVideoForFastStart env filePath st = (Next (path, err), st') /\
    trace st' = trace st ++ [EvFfmpeg filePath (filePath +:+ ".processing")] /\
    deferred st' = deferred st /\
    (err = None -> path = filePath +:+ ".processing") /\
    (err <> None -> path = EmptyString) /\
    db (world st') = db (world st) /\ s3 (world st') = s3 (world st) /\
    (forall p, p <> filePath +:+ ".processing" ->
       disk (world st') !! p = disk (world st) !! p).
Proof.
  unfold processVideoForFastStart, runFfmpeg.
  cbv beta iota zeta delta
    [mbind mret Handler_bind Handler_ret bind pure emit getWorld setWorld setDisk].
  cbn [world trace deferred db disk s3].
  destruct (disk (world st) !! filePath) as [src|] eqn:Hd.
  - destruct (exec_ffmpeg env src) as [[out|] [e|]];
      cbn [world trace deferred db disk s3]; eexists _, _, _;
      (split; [reflexivity|]); cbn [world trace deferred db disk s3];
      repeat split; try done.
    all: intros p Hp; by rewrite lookup_insert_ne.
  - eexists _, _, _. split; [reflexivity|]. by repeat split.
Qed.

Lemma processVideoForFastStart_result_witness :
  exists path err st',
    processVideoForFastStart (Sample.request "alice" Sample.mp4 Sample.faststart)
      "/tmp/tubely-upload-1.mp4"
      (initial (setDisk {[ "/tmp/tubely-upload-1.mp4" := content Sample.mp4 ]}
                  Sample.world))
    = (Next (path, err), st') /\
    disk (world st') !! "/tmp/tubely-upload-1.mp4" = Some (content Sample.mp4).
Proof.
  destruct (processVideoForFastStart_result
              (Sample.request "alice" Sample.mp4 Sample.faststart)
              "/tmp/tubely-upload-1.mp4"
              (initial (setDisk {[ "/tmp/tubely-upload-1.mp4" := content Sample.mp4 ]}
                          Sample.world)))
    as (path & err & st' & Hrun & _ & _ & _ & _ & _ & _ & Hdisk).
  exists path, err, st'. split; [exact Hrun|].
  rewrite Hdisk; [reflexivity|]. apply not_eq_sym, processing_ne.
Defined.

(** ** The video handler with fast start (lines 141 to 280) *)

Ltac pick_status := cbn [In]; repeat first [left; reflexivity | right].

(** X5: the handler answers every request exactly once: with 200 and a
    record, or with an error of status 400, 401, 404 or 500. *)
Theorem FastStart_responds_once env w :
  let st := serve (FastStart.handlerUploadVideo env) w in
  (exists payload, responsesOf (trace st) = [EvRespondWithJSON 200 payload]) \/
  (exists code msg err,
     responsesOf (trace st) = [EvRespondWithError code msg err] /\
     In code [400; 401; 404; 500]).
Proof.
  destruct env, w. unfold FastStart.handlerUploadVideo.
  run_handler.
  all: first [ left; eexists; reflexivity
             | right; eexists _, _, _; split; [reflexivity|pick_status] ].
Qed.

(** X6: once [os.CreateTemp] has made the staged file, that file is gone
    when the request is over, however it ends; and once the prober has been
    reached, so is the processed file. *)
Theorem FastStart_temporary_files_removed env w :
  snd (os_CreateTemp env) = None ->
  let st := serve (FastStart.handlerUploadVideo env) w in
  let tempFile := fst (os_CreateTemp env) in
  (createdOf (trace st) <> [] -> disk (world st) !! tempFile = None) /\
  (probesOf (trace st) <> [] ->
   disk (world st) !! (tempFile +:+ ".processing") = None).
Proof.
  destruct env as [? ? ? ? ? ? ? ? ? ? [name cerr] ? ? ? ? ? ? ? ?], w.
  cbn [os_CreateTemp snd fst]. intros ->.
  unfold FastStart.handlerUploadVideo.
  run_handler; (split; intros Hne; try done).
  all: rewrite ?lookup_delete_eq; try done.
  all: rewrite lookup_delete_ne by apply not_eq_sym, processing_ne.
  all: by rewrite lookup_delete_eq.
Qed.

Lemma FastStart_temporary_files_removed_witness :
  let st := serve (FastStart.handlerUploadVideo
                     (Sample.request "alice" Sample.mp4 Sample.faststart))
                  Sample.world in
  disk (world st) !! "/tmp/tubely-upload-1.mp4" = None /\
  disk (world st) !! "/tmp/tubely-upload-1.mp4.processing" = None.
Proof.
  destruct (FastStart_temporary_files_removed
              (Sample.request "alice" Sample.mp4 Sample.faststart) Sample.world
              eq_refl) as [H1 H2].
  split; [apply H1|apply H2]; vm_compute; discriminate.
Defined.

Ltac other_path :=
  let E := fresh in
  intros E;
  match goal with
  | H : ~ _ |- _ => apply H; cbn [In map snd]; auto; fail
  end.

(** X7: the handler changes the disk only at the staged file and at the
    output of the encoder: every other path holds afterwards what it held
    before. *)
Theorem FastStart_disk_frame env w path :
  let st := serve (FastStart.handlerUploadVideo env) w in
  ~ In path (createdOf (trace st)) ->
  ~ In path (outputsOf (trace st)) ->
  disk (world st) !! path = disk w !! path.
Proof.
  destruct env, w. unfold FastStart.handlerUploadVideo, outputsOf.
  run_handler; cbn [map snd In]; intros H1 H2; try done.
  all: rewrite ?lookup_delete_ne, ?lookup_insert_ne by other_path; done.
Qed.

Lemma FastStart_disk_frame_witness :
  disk (world (serve (FastStart.handlerUploadVideo
                        (Sample.request "alice" Sample.mp4 Sample.faststart))
                     (setDisk {[ "assets/old.png" := [x01] ]} Sample.world)))
    !! "assets/old.png" = Some [x01].
Proof.
  rewrite (FastStart_disk_frame
             (Sample.request "alice" Sample.mp4 Sample.faststart)
             (setDisk {[ "assets/old.png" := [x01] ]} Sample.world)
             "assets/old.png").
  - reflexivity.
  - vm_compute. intros [H|[]]. discriminate H.
  - vm_compute. intros [H|[]]. discriminate H.
Defined.

(** X8: the bucket grows by the one object of [PutObject] when that call
    succeeds, and is as it was otherwise; a later failure of the record
    update does not take the object back. *)
Theorem FastStart_bucket env w :
  let st := serve (FastStart.handlerUploadVideo env) w in
  (length (putObjectsOf (trace st)) <= 1)%nat /\
  (s3Client_PutObject env = None -> s3 (world st) = s3 w ++ putObjectsOf (trace st)) /\
  (s3Client_PutObject env <> None -> s3 (world st) = s3 w).
Proof.
  destruct env, w. unfold FastStart.handlerUploadVideo.
  run_handler; cbn [length]; (split; [lia|]); split; intros Hput; try done.
  all: by rewrite app_nil_r.
Qed.

Lemma FastStart_bucket_witness :
  exists input,
    s3 (world (serve (FastStart.handlerUploadVideo
                        (Sample.request "alice" Sample.mp4 Sample.faststart))
                     Sample.world)) = [input] /\
    Bucket input = "tubely".
Proof.
  destruct (FastStart_bucket
              (Sample.request "alice" Sample.mp4 Sample.faststart) Sample.world)
    as (_ & H & _).
  cbv zeta in H. rewrite H by reflexivity.
  eexists. split; [vm_compute; reflexivity|reflexivity].
Defined.

(** X9: the object put in the bucket goes to the configured bucket and
    carries the bytes the encoder wrote, not the staged upload. *)
Theorem FastStart_uploads_processed_bytes env w input :
  let st := serve (FastStart.handlerUploadVideo env) w in
  In input (putObjectsOf (trace st)) ->
  Bucket input = s3Bucket env /\
  exists part,
    r_FormFile env = inl part /\
    forall out, fst (exec_ffmpeg env (content part)) = Some out -> Body input = out.
Proof.
  destruct env, w. unfold FastStart.handlerUploadVideo.
  run_handler; intros Hin; try (destruct Hin; fail).
  all: destruct Hin as [<-|[]]; split; [reflexivity|].
  all: eexists; split; [reflexivity|]; cbn [Body]; intros out Hout.
  all: match goal with
       | H : ?x = _, Hf : (?x).1 = Some _ |- _ => rewrite H in Hf; cbn in Hf
       end; congruence.
Qed.

Lemma FastStart_uploads_processed_bytes_witness :
  let env := Sample.request "alice" Sample.mp4
               (fun src => (Some (src ++ [x01]), None)) in
  let input :=
    {| Bucket := "tubely";
       Key := "landscape/AAAAAAAAAAAAAAAAAAAAAAAAAAAAAAAAAAAAAAAAAAA.mp4";
       Body := content Sample.mp4 ++ [x01]; ContentType := "video/mp4" |} in
  In input (putObjectsOf (trace (serve (FastStart.handlerUploadVideo env)
                                    Sample.world))) /\
  Bucket input = s3Bucket env.
Proof.
  intros env input.
  assert (Hin : In input (putObjectsOf (trace (serve (FastStart.handlerUploadVideo env)
                                                 Sample.world))))
    by (vm_compute; left; reflexivity).
  split; [exact Hin|].
  destruct (FastStart_uploads_processed_bytes env Sample.world input Hin)
    as (H & _).
  exact H.
Defined.

(** X10: after a successful upload the record in the response is the one
    submitted to the store: the fetched record with its video URL set to
    [https://<bucket>.s3.<region>.amazonaws.com/<key>] for the key of the
    object just put; in a store keyed by identifier it is then the stored
    record. *)
Theorem FastStart_success_record env w payload :
  let st := serve (FastStart.handlerUploadVideo env) w in
  responsesOf (trace st) = [EvRespondWithJSON 200 payload] ->
  exists fetched input,
    db w !! fst (uuid_Parse env) = Some fetched /\
    putObjectsOf (trace st) = [input] /\
    payload = setVideoURL ("https://" +:+ Bucket input +:+ ".s3." +:+ s3Region env
                           +:+ ".amazonaws.com/" +:+ Key input) fetched /\
    updatesOf (trace st) = [payload] /\
    (storeKeyed (db w) ->
     db (world st) = <[fst (uuid_Parse env) := payload]> (db w)).
Proof.
  destruct env, w. unfold FastStart.handlerUploadVideo.
  run_handler; intros Hresp; try discriminate Hresp.
  all: injection Hresp as <-; eexists _, _.
  all: split; [reflexivity|]; split; [reflexivity|]; split; [reflexivity|].
  all: split; [reflexivity|]; intros Hk.
  all: repeat match goal with
       | H : _ !! ?k = Some ?v |- _ =>
           lazymatch goal with
           | _ : ID v = k |- _ => fail
           | _ => pose proof (Hk k v H)
           end
       end.
  all: cbn [ID setVideoURL] in *; congruence.
Qed.

Lemma FastStart_success_record_witness :
  db (world (serve (FastStart.handlerUploadVideo
                      (Sample.request "alice" Sample.mp4 Sample.faststart))
                   Sample.world)) !! ID Sample.video
  = Some (setVideoURL
            "https://tubely.s3.us-east-2.amazonaws.com/landscape/AAAAAAAAAAAAAAAAAAAAAAAAAAAAAAAAAAAAAAAAAAA.mp4"
            Sample.video).
Proof.
  destruct (FastStart_success_record
              (Sample.request "alice" Sample.mp4 Sample.faststart) Sample.world
              (setVideoURL
                 "https://tubely.s3.us-east-2.amazonaws.com/landscape/AAAAAAAAAAAAAAAAAAAAAAAAAAAAAAAAAAAAAAAAAAA.mp4"
                 Sample.video))
    as (fetched & input & _ & _ & _ & _ & Hdb).
  - vm_compute. reflexivity.
  - rewrite Hdb.
    + apply lookup_insert_eq.
    + intros k v Hkv. cbn in Hkv. apply lookup_singleton_Some in Hkv as [<- <-]. reflexivity.
Defined.

(** X11: when the probing tool fails or its output does not decode, the
    request fails with 500; nothing is put in the bucket or submitted to the
    store, and both temporary files are removed. *)
Theorem FastStart_probe_failure env w part :
  r_FormFile env = inl part ->
  io_Copy env = None ->
  (forall probeOutput, exec_ffprobe env (content part) <> Unmarshalled probeOutput) ->
  let st := serve (FastStart.handlerUploadVideo env) w in
  let tempFile := fst (os_CreateTemp env) in
  probesOf (trace st) <> [] ->
  (exists e, responsesOf (trace st) =
             [EvRespondWithError 500 "Couldn't get video aspect ratio" (Some e)]) /\
  putObjectsOf (trace st) = [] /\ updatesOf (trace st) = [] /\
  db (world st) = db w /\ s3 (world st) = s3 w /\
  disk (world st) !! tempFile = None /\
  disk (world st) !! (tempFile +:+ ".processing") = None.
Proof.
  intros H1 H2 H3. destruct env, w. cbn in H1, H2, H3. subst.
  unfold FastStart.handlerUploadVideo.
  run_handler; intros Hne; try done.
  all: try (exfalso; eapply H3; first [eassumption|reflexivity]).
  all: split; [eexists; reflexivity|]; repeat (split; [reflexivity|]).
  all: rewrite ?lookup_delete_eq; split; [done|].
  all: rewrite lookup_delete_ne by apply not_eq_sym, processing_ne.
  all: by rewrite lookup_delete_eq.
Qed.

Lemma FastStart_probe_failure_witness :
  let env :=
    {| s3Bucket := "tubely"; s3Region := "us-east-2";
       assetsRoot := "assets"; port := "8091";
       uuid_Parse := (ID Sample.video, None);
       auth_GetBearerToken := ("token", None);
       auth_ValidateJWT := fun _ => ("alice", None);
       r_ParseMultipartForm := None;
       r_FormFile := inl Sample.mp4;
       mime_ParseMediaType := mime.ParseMediaType;
       os_CreateTemp := ("/tmp/tubely-upload-1.mp4", None);
       os_Create := None;
       io_Copy := None;
       tempFile_Seek := None;
       exec_ffmpeg := Sample.faststart;
       exec_ffprobe := fun _ => UnmarshalError "unexpected end of JSON input";
       rand_Read := (replicate 32 x00, None);
       s3Client_PutObject := None;
       db_UpdateVideo := None |} in
  putObjectsOf (trace (serve (FastStart.handlerUploadVideo env) Sample.world)) = [].
Proof.
  intros env.
  destruct (FastStart_probe_failure env Sample.world Sample.mp4) as (_ & H & _).
  - reflexivity.
  - reflexivity.
  - intros po. discriminate.
  - vm_compute. discriminate.
  - exact H.
Defined.

(** X12: the handler reaches [os.CreateTemp] only for a caller who
    presented a valid token, owns the record of the requested video, and
    sent a part whose parsed media type is [video/mp4]. *)
Theorem FastStart_stages_only_for_owner env w :
  let st := serve (FastStart.handlerUploadVideo env) w in
  createdOf (trace st) <> [] ->
  snd (uuid_Parse env) = None /\
  snd (auth_GetBearerToken env) = None /\
  snd (auth_ValidateJWT env (fst (auth_GetBearerToken env))) = None /\
  exists video part,
    db w !! fst (uuid_Parse env) = Some video /\
    UserID video = fst (auth_ValidateJWT env (fst (auth_GetBearerToken env))) /\
    r_FormFile env = inl part /\
    mime_ParseMediaType env (partContentType part) = ("video/mp4", None).
Proof.
  destruct env, w. unfold FastStart.handlerUploadVideo.
  run_handler; intros Hne; try done.
  all: repeat (split; [reflexivity|]); eexists _, _.
  all: repeat (split; [first [eassumption|reflexivity|congruence]|]); congruence.
Qed.

Lemma FastStart_stages_only_for_owner_witness :
  exists video,
    db Sample.world !! ID Sample.video = Some video /\ UserID video = "alice".
Proof.
  destruct (FastStart_stages_only_for_owner
              (Sample.request "alice" Sample.mp4 Sample.faststart) Sample.world)
    as (_ & _ & _ & video & part & Hv & Hu & _).
  - vm_compute. discriminate.
  - exists video. split; [exact Hv|exact Hu].
Defined.

(** X13: a request answered with a client error (400, 401 or 404) leaves
    the world exactly as it was: no file, no object, no record change. *)
Theorem FastStart_client_error_touches_nothing env w code msg :
  let st := serve (FastStart.handlerUploadVideo env) w in
  In (code, msg) (errorsOf (trace st)) ->
  code <> 500 ->
  world st = w /\ createdOf (trace st) = [] /\
  putObjectsOf (trace st) = [] /\ updatesOf (trace st) = [].
Proof.
  destruct env, w. unfold FastStart.handlerUploadVideo.
  run_handler; intros Hin Hcode; try (destruct Hin; fail).
  all: destruct Hin as [[= <- <-]|[]]; done.
Qed.

Lemma FastStart_client_error_touches_nothing_witness :
  world (serve (FastStart.handlerUploadVideo
                  (Sample.request "alice" Sample.malformed Sample.faststart))
               Sample.world) = Sample.world.
Proof.
  apply (FastStart_client_error_touches_nothing
           (Sample.request "alice" Sample.malformed Sample.faststart)
           Sample.world 400 "Failed to parse media type").
  - vm_compute. left. reflexivity.
  - discriminate.
Defined.

(** X14: the three handlers that return after each failure never panic:
    each run ends by falling through or by a [return]. *)
Theorem returning_handlers_never_panic env w :
  fst (FastStart.handlerUploadVideo env (initial w)) <> Panic /\
  fst (RandomName.handlerUploadThumbnail env (initial w)) <> Panic /\
  fst (ByVideoID.handlerUploadThumbnail env (initial w)) <> Panic.
Proof.
  destruct env, w. unfold initial. repeat split.
  - unfold FastStart.handlerUploadVideo. unfold_handler.
    repeat run_step; discriminate.
  - unfold RandomName.handlerUploadThumbnail. unfold_handler.
    repeat run_step; discriminate.
  - unfold ByVideoID.handlerUploadThumbnail. unfold_handler.
    repeat run_step; discriminate.
Qed.

(** ** The first video handler (lines 17 to 121) *)

(** X15: when the request carries no [video] part, the first listing
    answers 400 and then panics on [file.Close()], the multipart file being
    nil; nothing is staged, put or updated, and the world is as it was. *)
Theorem Direct_missing_file_panics env w err :
  r_FormFile env = inr err ->
  fst (Direct.handlerUploadVideo env (initial w)) = Panic /\
  let st := serve (Direct.handlerUploadVideo env) w in
  last (responsesOf (trace st)) =
    Some (EvRespondWithError 400 "Couldn't get video file from form" (Some err)) /\
  world st = w /\ createdOf (trace st) = [] /\
  putObjectsOf (trace st) = [] /\ updatesOf (trace st) = [].
Proof.
  intros H1. destruct env, w. cbn in H1. subst. split.
  - unfold initial, Direct.handlerUploadVideo. unfold_handler.
    repeat run_step; reflexivity.
  - unfold Direct.handlerUploadVideo. run_handler; done.
Qed.

Lemma Direct_missing_file_panics_witness :
  let env :=
    {| s3Bucket := "tubely"; s3Region := "us-east-2";
       assetsRoot := "assets"; port := "8091";
       uuid_Parse := (ID Sample.video, None);
       auth_GetBearerToken := ("token", None);
       auth_ValidateJWT := fun _ => ("alice", None);
       r_ParseMultipartForm := None;
       r_FormFile := inr "http: no such file";
       mime_ParseMediaType := mime.ParseMediaType;
       os_CreateTemp := ("/tmp/tubely-upload-1.mp4", None);
       os_Create := None;
       io_Copy := None;
       tempFile_Seek := None;
       exec_ffmpeg := Sample.faststart;
       exec_ffprobe := fun _ => Unmarshalled Sample.stream1080p;
       rand_Read := (replicate 32 x00, None);
       s3Client_PutObject := None;
       db_UpdateVideo := None |} in
  fst (Direct.handlerUploadVideo env (initial Sample.world)) = Panic /\
  fst (FastStart.handlerUploadVideo env (initial Sample.world)) = Return.
Proof.
  intros env. split.
  - apply (Direct_missing_file_panics env Sample.world "http: no such file").
    reflexivity.
  - vm_compute. reflexivity.
Defined.

(** X16: whatever the first listing puts in the bucket is the staged upload
    itself: the bytes of the part as sent, under the bare key
    [<token>.mp4] with no prefix, in the configured bucket and with the
    declared content type; the encoder and the prober are never run. *)
Theorem Direct_uploads_staged_bytes env w input :
  let st := serve (Direct.handlerUploadVideo env) w in
  In input (putObjectsOf (trace st)) ->
  (exists part,
     r_FormFile env = inl part /\
     input = {| Bucket := s3Bucket env; Key := tokenOf env +:+ ".mp4";
                Body := content part; ContentType := partContentType part |}) /\
  transcodesOf (trace st) = [] /\ probesOf (trace st) = [].
Proof.
  destruct env, w. unfold Direct.handlerUploadVideo, tokenOf.
  run_handler; intros Hin; try (destruct Hin; fail).
  all: destruct Hin as [<-|[]]; split; [|done].
  all: eexists; split; [reflexivity|]; reflexivity.
Qed.

Lemma Direct_uploads_staged_bytes_witness :
  let env := Sample.request "alice" Sample.mp4 Sample.brokenEncoder in
  let input :=
    {| Bucket := "tubely";
       Key := "AAAAAAAAAAAAAAAAAAAAAAAAAAAAAAAAAAAAAAAAAAA.mp4";
       Body := content Sample.mp4; ContentType := "video/mp4" |} in
  In input (putObjectsOf (trace (serve (Direct.handlerUploadVideo env)
                                    Sample.world))) /\
  transcodesOf (trace (serve (Direct.handlerUploadVideo env) Sample.world)) = [].
Proof.
  intros env input.
  assert (Hin : In input (putObjectsOf (trace (serve (Direct.handlerUploadVideo env)
                                                 Sample.world))))
    by (vm_compute; left; reflexivity).
  split; [exact Hin|].
  destruct (Direct_uploads_staged_bytes env Sample.world input Hin)
    as (_ & H & _).
  exact H.
Defined.

(** X17: the checks of the first listing that do return hold on every
    path: [os.CreateTemp] is reached only for a part whose parsed media
    type is [video/mp4], the staged file it made is removed when the request
    is over, and a request answered with 500 gets no success response. *)
Theorem Direct_late_checks env w :
  let st := serve (Direct.handlerUploadVideo env) w in
  (createdOf (trace st) <> [] ->
   exists part,
     r_FormFile env = inl part /\
     mime_ParseMediaType env (partContentType part) = ("video/mp4", None)) /\
  (snd (os_CreateTemp env) = None -> createdOf (trace st) <> [] ->
   disk (world st) !! fst (os_CreateTemp env) = None) /\
  (forall msg payload,
     In (500, msg) (errorsOf (trace st)) ->
     ~ In (EvRespondWithJSON 200 payload) (trace st)).
Proof.
  destruct env as [? ? ? ? ? ? ? ? ? ? [name cerr] ? ? ? ? ? ? ? ?], w.
  unfold Direct.handlerUploadVideo.
  run_handler; (split; [|split]).
  all: try (intros Hne;
            first [ by destruct Hne | eexists; split; [reflexivity|congruence] ]).
  all: try (intros msg payload Hin Hj; cbn [In] in Hin, Hj;
            first [absurd_in Hj | absurd_in Hin]).
  all: cbn [snd fst]; intros Herr Hne; try discriminate Herr; try done.
  all: by rewrite ?lookup_delete_eq.
Qed.

(** X18: in the first listing none of the early failures keeps the upload
    out of the bucket: whenever the part is there with a header that parses
    to [video/mp4] and the steps from staging to [PutObject] succeed, the
    object is stored, whether or not the video ID parsed, a token was
    presented and validated, the record exists, or the caller owns it. *)
Theorem Direct_stores_for_any_caller env w part :
  r_FormFile env = inl part ->
  mime_ParseMediaType env (partContentType part) = ("video/mp4", None) ->
  snd (os_CreateTemp env) = None ->
  io_Copy env = None ->
  tempFile_Seek env = None ->
  snd (rand_Read env) = None ->
  s3Client_PutObject env = None ->
  let st := serve (Direct.handlerUploadVideo env) w in
  s3 (world st)
  = s3 w ++ [{| Bucket := s3Bucket env; Key := tokenOf env +:+ ".mp4";
                Body := content part; ContentType := partContentType part |}].
Proof.
  intros H1 H2 H3 H4 H5 H6 H7.
  destruct env as [? ? ? ? ? ? ? ? ? parse [name cerr] ? ? ? ? ? [block rerr] ? ?], w.
  cbn in H1, H2, H3, H4, H5, H6, H7. subst.
  unfold Direct.handlerUploadVideo, tokenOf.
  run_handler; done.
Qed.

Lemma Direct_stores_for_any_caller_witness :
  let env :=
    {| s3Bucket := "tubely"; s3Region := "us-east-2";
       assetsRoot := "assets"; port := "8091";
       uuid_Parse := (EmptyString, Some "invalid UUID length: 3");
       auth_GetBearerToken := (EmptyString, Some "no auth header included in request");
       auth_ValidateJWT := fun _ => (EmptyString, Some "token is malformed");
       r_ParseMultipartForm := None;
       r_FormFile := inl Sample.mp4;
       mime_ParseMediaType := mime.ParseMediaType;
       os_CreateTemp := ("/tmp/tubely-upload-1.mp4", None);
       os_Create := None;
       io_Copy := None;
       tempFile_Seek := None;
       exec_ffmpeg := Sample.faststart;
       exec_ffprobe := fun _ => Unmarshalled Sample.stream1080p;
       rand_Read := (replicate 32 x00, None);
       s3Client_PutObject := None;
       db_UpdateVideo := None |} in
  s3 (world (serve (Direct.handlerUploadVideo env) Sample.world))
  = [{| Bucket := "tubely";
        Key := "AAAAAAAAAAAAAAAAAAAAAAAAAAAAAAAAAAAAAAAAAAA.mp4";
        Body := content Sample.mp4; ContentType := "video/mp4" |}].
Proof.
  intros env.
  apply (Direct_stores_for_any_caller env Sample.world Sample.mp4);
    reflexivity.
Defined.

(** ** The thumbnail handlers (lines 386 to 503 and 531 to 628) *)

Lemma getFileExtension_ok contentType fileExt :
  getFileExtension contentType = (fileExt, None) ->
  (contentType = "image/jpeg" /\ fileExt = ".jpg") \/
  (contentType = "image/png" /\ fileExt = ".png") \/
  (contentType = "image/gif" /\ fileExt = ".gif").
Proof.
  unfold getFileExtension. repeat case_decide; intros [= <-]; auto.
Qed.

(** X19: each thumbnail handler answers every request exactly once: with
    200 and a record, or with an error of status 400, 401, 404 or 500. *)
Theorem thumbnail_handlers_respond_once env w :
  let once (st : State) :=
    (exists payload, responsesOf (trace st) = [EvRespondWithJSON 200 payload]) \/
    (exists code msg err,
       responsesOf (trace st) = [EvRespondWithError code msg err] /\
       In code [400; 401; 404; 500]) in
  once (serve (RandomName.handlerUploadThumbnail env) w) /\
  once (serve (ByVideoID.handlerUploadThumbnail env) w).
Proof.
  destruct env, w. split.
  - unfold RandomName.handlerUploadThumbnail. run_handler.
    all: first [ left; eexists; reflexivity
               | right; eexists _, _, _; split; [reflexivity|pick_status] ].
  - unfold ByVideoID.handlerUploadThumbnail. run_handler.
    all: first [ left; eexists; reflexivity
               | right; eexists _, _, _; split; [reflexivity|pick_status] ].
Qed.

(** X20: in the second thumbnail listing, too, an error response is the
    last thing the handler does before its deferred clean-up, and the store
    is as it was. *)
Theorem ByVideoID_error_is_final env w :
  let st := serve (ByVideoID.handlerUploadThumbnail env) w in
  errorIsFinal (trace st) = true /\
  (errorsOf (trace st) <> [] -> db (world st) = db w).
Proof.
  destruct env, w. unfold ByVideoID.handlerUploadThumbnail.
  run_handler; (split; [reflexivity|]); done.
Qed.

(** X21: neither thumbnail handler touches the bucket, the encoder or the
    prober, and on disk it changes nothing but the one file it creates. *)
Theorem thumbnail_handlers_frame env w :
  let frame (st : State) :=
    s3 (world st) = s3 w /\ putObjectsOf (trace st) = [] /\
    transcodesOf (trace st) = [] /\ probesOf (trace st) = [] /\
    (length (createdOf (trace st)) <= 1)%nat /\
    forall path, ~ In path (createdOf (trace st)) ->
                 disk (world st) !! path = disk w !! path in
  frame (serve (RandomName.handlerUploadThumbnail env) w) /\
  frame (serve (ByVideoID.handlerUploadThumbnail env) w).
Proof.
  destruct env, w. split.
  - unfold RandomName.handlerUploadThumbnail. run_handler.
    all: repeat (split; [first [reflexivity|cbn [length]; lia]|]).
    all: intros path Hp; try done.
    all: rewrite ?lookup_insert_ne by other_path; done.
  - unfold ByVideoID.handlerUploadThumbnail. run_handler.
    all: repeat (split; [first [reflexivity|cbn [length]; lia]|]).
    all: intros path Hp; try done.
    all: rewrite ?lookup_insert_ne by other_path; done.
Qed.







(** X25: the first thumbnail listing calls [os.Create] only for a caller with
    a valid token whose part has a header that parses to [image/jpeg] or
    [image/png]; the record and its owner are not among the conditions. *)
Theorem RandomName_creates_only_for_images env w :
  let st := serve (RandomName.handlerUploadThumbnail env) w in
  createdOf (trace st) <> [] ->
  snd (uuid_Parse env) = None /\
  snd (auth_GetBearerToken env) = None /\
  snd (auth_ValidateJWT env (fst (auth_GetBearerToken env))) = None /\
  r_ParseMultipartForm env = None /\
  exists part parsedMediaType,
    r_FormFile env = inl part /\
    mime_ParseMediaType env (partContentType part) = (parsedMediaType, None) /\
    (parsedMediaType = "image/jpeg" \/ parsedMediaType = "image/png").
Proof.
  destruct env, w. unfold RandomName.handlerUploadThumbnail.
  run_handler; intros Hne; try (by destruct Hne); try done.
  all: repeat (split; [reflexivity|]); eexists _, _.
  all: split; [reflexivity|]; split; [eassumption|].
  all: match goal with
       | H : ~ (_ <> "image/jpeg") |- _ => left; exact (dec_stable H)
       | H : ~ (_ <> "image/png") |- _ => right; exact (dec_stable H)
       end.
Qed.

Lemma RandomName_creates_only_for_images_witness :
  exists parsedMediaType,
    mime.ParseMediaType "image/png" = (parsedMediaType, None) /\
    (parsedMediaType = "image/jpeg" \/ parsedMediaType = "image/png").
Proof.
  destruct (RandomName_creates_only_for_images
              (Sample.request "mallory" Sample.png Sample.faststart) Sample.world)
    as (_ & _ & _ & _ & part & parsed & Hpart & Hparse & Htype).
  - vm_compute. discriminate.
  - injection Hpart as <-. exists parsed. split; [exact Hparse|exact Htype].
Defined.

(** X26: the second thumbnail listing calls [os.Create] only for a caller
    with a valid token whose part has, as its header, exactly [image/jpeg],
    [image/png] or [image/gif]: the header is not parsed, so one with a
    parameter is turned away; the record and its owner are not among the
    conditions. *)
Theorem ByVideoID_creates_only_for_literal_types env w :
  let st := serve (ByVideoID.handlerUploadThumbnail env) w in
  createdOf (trace st) <> [] ->
  snd (uuid_Parse env) = None /\
  snd (auth_GetBearerToken env) = None /\
  snd (auth_ValidateJWT env (fst (auth_GetBearerToken env))) = None /\
  r_ParseMultipartForm env = None /\
  exists part,
    r_FormFile env = inl part /\
    In (partContentType part) ["image/jpeg"; "image/png"; "image/gif"].
Proof.
  destruct env, w. unfold ByVideoID.handlerUploadThumbnail.
  run_handler; intros Hne; try (by destruct Hne); try done.
  all: repeat (split; [reflexivity|]); eexists.
  all: split; [reflexivity|].
  all: match goal with
       | H : getFileExtension _ = (_, None) |- _ =>
           apply getFileExtension_ok in H as [[-> _]|[[-> _]|[-> _]]]
       end; cbn [In]; auto.
Qed.

Lemma ByVideoID_creates_only_for_literal_types_witness :
  createdOf (trace (serve (ByVideoID.handlerUploadThumbnail
                             (Sample.request "alice"
                                {| content := [x89];
                                   partContentType := "image/png; charset=utf-8" |}
                                Sample.faststart))
                          Sample.world)) = [] /\
  In (partContentType Sample.png) ["image/jpeg"; "image/png"; "image/gif"].
Proof.
  split; [vm_compute; reflexivity|].
  destruct (ByVideoID_creates_only_for_literal_types
              (Sample.request "mallory" Sample.png Sample.faststart) Sample.world)
    as (_ & _ & _ & _ & part & Hpart & Htype).
  - vm_compute. discriminate.
  - injection Hpart as <-. exact Htype.
Defined.

(** X27: neither thumbnail handler removes the file it created: once
    [os.Create] has succeeded the file is on disk when the request is over,
    also when the request then fails with 404, 401 or 500. *)
Theorem thumbnail_file_is_never_removed env w :
  os_Create env = None ->
  let kept (st : State) :=
    forall path, In path (createdOf (trace st)) ->
                 is_Some (disk (world st) !! path) in
  kept (serve (RandomName.handlerUploadThumbnail env) w) /\
  kept (serve (ByVideoID.handlerUploadThumbnail env) w).
Proof.
  intros H1. destruct env, w. cbn in H1. subst. split.
  - unfold RandomName.handlerUploadThumbnail. run_handler.
    all: intros path Hin; try (destruct Hin; fail); try done.
    all: destruct Hin as [<-|[]]; by rewrite ?lookup_insert_eq.
  - unfold ByVideoID.handlerUploadThumbnail. run_handler.
    all: intros path Hin; try (destruct Hin; fail); try done.
    all: destruct Hin as [<-|[]]; by rewrite ?lookup_insert_eq.
Qed.

Lemma thumbnail_file_is_never_removed_witness :
  let env :=
    {| s3Bucket := "tubely"; s3Region := "us-east-2";
       assetsRoot := "assets"; port := "8091";
       uuid_Parse := ("00000000-0000-0000-0000-000000000000", None);
       auth_GetBearerToken := ("token", None);
       auth_ValidateJWT := fun _ => ("alice", None);
       r_ParseMultipartForm := None;
       r_FormFile := inl Sample.png;
       mime_ParseMediaType := mime.ParseMediaType;
       os_CreateTemp := ("/tmp/tubely-upload-1.mp4", None);
       os_Create := None;
       io_Copy := None;
       tempFile_Seek := None;
       exec_ffmpeg := Sample.faststart;
       exec_ffprobe := fun _ => Unmarshalled Sample.stream1080p;
       rand_Read := (replicate 32 x00, None);
       s3Client_PutObject := None;
       db_UpdateVideo := None |} in
  errorsOf (trace (serve (ByVideoID.handlerUploadThumbnail env) Sample.world))
  = [(404, "Video not found")] /\
  is_Some (disk (world (serve (ByVideoID.handlerUploadThumbnail env) Sample.world))
             !! "assets/00000000-0000-0000-0000-000000000000.png").
Proof.
  intros env. split; [vm_compute; reflexivity|].
  destruct (thumbnail_file_is_never_removed env Sample.world eq_refl) as [_ H].
  apply H. vm_compute. left. reflexivity.
Defined.

(** ** The prefix and the token of a name *)

(** X28: whatever the prober reports, the prefix of a storage key is one
    of [landscape], [portrait] and [other]. *)
Theorem classification_range probeOutput :
  In (classification probeOutput) ["landscape"; "portrait"; "other"].
Proof.
  unfold classification, aspectRatio.
  destruct (Streams probeOutput) as [|stream0 rest]; [cbn; auto|].
  cbv zeta.
  destruct (Float64.eqb _ _); [cbn; auto|].
  destruct (_ && _); [cbn; auto|].
  destruct (_ && _); cbn; auto.
Qed.

Lemma encode_url_safe (i : N) : isURLSafe (base64.encode i) = true.
Proof.
  unfold base64.encode. generalize (N.to_nat i). intros n.
  do 64 (destruct n as [|n]; [vm_compute; reflexivity|]).
  replace (String.get _ base64.encodeURL) with (@None ascii);
    [vm_compute; reflexivity|].
  unfold base64.encodeURL. cbn [String.get]. by destruct n.
Qed.

Lemma EncodeToString_url_safe (src : bytes) (c : ascii) :
  In c (list_ascii_of_string (base64.EncodeToString src)) -> isURLSafe c = true.
Proof.
  induction src as [|b0|b0 b1|b0 b1 b2 rest IH] using list_ind3;
    cbn [base64.EncodeToString list_ascii_of_string In].
  - intros [].
  - intros [<-|[<-|[]]]; apply encode_url_safe.
  - intros [<-|[<-|[<-|[]]]]; apply encode_url_safe.
  - intros [<-|[<-|[<-|[<-|Hin]]]]; try apply encode_url_safe. by apply IH.
Qed.

(** X29: the token in a storage key or a file name is made of characters
    of the URL-safe alphabet only; it holds no slash and no dot, so it adds
    no directory and no extension to the name it is part of. *)
Theorem tokenOf_url_safe env c :
  In c (list_ascii_of_string (tokenOf env)) ->
  isURLSafe c = true /\ c <> "/"%char /\ c <> "."%char.
Proof.
  intros Hin. apply EncodeToString_url_safe in Hin.
  split; [exact Hin|]. split; intros ->; discriminate Hin.
Qed.

Lemma tokenOf_url_safe_witness :
  isURLSafe "A" = true /\ "A"%char <> "/"%char /\ "A"%char <> "."%char.
Proof.
  apply (tokenOf_url_safe (Sample.request "alice" Sample.mp4 Sample.faststart)).
  vm_compute. left. reflexivity.
Defined.

(** ** Distinct random blocks, distinct names *)

Lemma encode_inj (i j : N) :
  (i < 64)%N -> (j < 64)%N -> base64.encode i = base64.encode j -> i = j.
Proof.
  intros Hi Hj E.
  assert (List.forallb
            (fun n => List.forallb
               (fun m => implb (Ascii.eqb (base64.encode (N.of_nat n))
                                          (base64.encode (N.of_nat m)))
                               (Nat.eqb n m))
               (List.seq 0 64))
            (List.seq 0 64) = true) as H by (vm_compute; reflexivity).
  rewrite List.forallb_forall in H.
  specialize (H (N.to_nat i)). rewrite List.forallb_forall in H.
  assert (In (N.to_nat i) (List.seq 0 64)) as Hi' by (apply List.in_seq; lia).
  assert (In (N.to_nat j) (List.seq 0 64)) as Hj' by (apply List.in_seq; lia).
  specialize (H Hi' _ Hj').
  rewrite !N2Nat.id, E, Ascii.eqb_refl in H. cbn [implb] in H.
  apply Nat.eqb_eq in H. lia.
Qed.

Lemma sextet_lt (v k : N) : (N.land (N.shiftr v k) 63 < 64)%N.
Proof.
  change 63%N with (N.ones 6). rewrite N.land_ones.
  apply N.mod_lt. discriminate.
Qed.

Lemma sextet_bit (v k n : N) :
  (k <= n < k + 6)%N ->
  N.testbit v n = N.testbit (N.land (N.shiftr v k) 63) (n - k).
Proof.
  intros Hn. change 63%N with (N.ones 6).
  rewrite N.land_spec, N.shiftr_spec', N.ones_spec_low by lia.
  rewrite andb_true_r. f_equal. lia.
Qed.

Lemma byte_bits_high (b : byte) (m : N) :
  (8 <= m)%N -> N.testbit (Byte.to_N b) m = false.
Proof.
  intros Hm. pose proof (Byte.to_N_bounded b) as Hb.
  destruct (N.eq_dec (Byte.to_N b) 0%N) as [->|Hne]; [apply N.bits_0|].
  apply N.bits_above_log2.
  assert (N.log2 (Byte.to_N b) < 8)%N; [|lia].
  apply N.log2_lt_pow2; [lia|]. change (2 ^ 8)%N with 256%N. lia.
Qed.

Lemma to_N_inj (a b : byte) :
  (forall m, (m < 8)%N -> N.testbit (Byte.to_N a) m = N.testbit (Byte.to_N b) m) ->
  a = b.
Proof.
  intros H.
  assert (Byte.to_N a = Byte.to_N b) as E.
  { apply N.bits_inj. intros m. destruct (N.lt_ge_cases m 8) as [Hm|Hm].
    - by apply H.
    - by rewrite !byte_bits_high. }
  pose proof (Byte.of_to_N a) as Ha. rewrite E, Byte.of_to_N in Ha. congruence.
Qed.

(** The 24-bit group of three bytes. *)
Lemma group_bit (x y z : byte) (n : N) :
  N.testbit (N.lor (N.lor (N.shiftl (Byte.to_N x) 16) (N.shiftl (Byte.to_N y) 8))
                   (Byte.to_N z)) n
  = if (16 <=? n)%N then N.testbit (Byte.to_N x) (n - 16)
    else if (8 <=? n)%N then N.testbit (Byte.to_N y) (n - 8)
    else N.testbit (Byte.to_N z) n.
Proof.
  rewrite !N.lor_spec.
  destruct (N.leb_spec 16 n) as [H16|H16].
  - rewrite N.shiftl_spec_high', N.shiftl_spec_high' by lia.
    rewrite (byte_bits_high y), (byte_bits_high z) by lia.
    by rewrite !orb_false_r.
  - rewrite (N.shiftl_spec_low _ 16) by lia.
    destruct (N.leb_spec 8 n) as [H8|H8].
    + rewrite N.shiftl_spec_high' by lia.
      rewrite (byte_bits_high z) by lia. by rewrite orb_false_r.
    + by rewrite N.shiftl_spec_low by lia.
Qed.

Lemma group_sextet (x y z x' y' z' : byte) (k n : N) :
  let v := N.lor (N.lor (N.shiftl (Byte.to_N x) 16) (N.shiftl (Byte.to_N y) 8))
                 (Byte.to_N z) in
  let v' := N.lor (N.lor (N.shiftl (Byte.to_N x') 16) (N.shiftl (Byte.to_N y') 8))
                  (Byte.to_N z') in
  base64.encode (N.land (N.shiftr v k) 63) = base64.encode (N.land (N.shiftr v' k) 63) ->
  (k <= n < k + 6)%N ->
  N.testbit v n = N.testbit v' n.
Proof.
  intros v v' E Hn.
  apply encode_inj in E; [|apply sextet_lt..].
  by rewrite (sextet_bit v k n), (sextet_bit v' k n), E.
Qed.

Lemma group_inj (x y z x' y' z' : byte) (lo : N) :
  let v := N.lor (N.lor (N.shiftl (Byte.to_N x) 16) (N.shiftl (Byte.to_N y) 8))
                 (Byte.to_N z) in
  let v' := N.lor (N.lor (N.shiftl (Byte.to_N x') 16) (N.shiftl (Byte.to_N y') 8))
                  (Byte.to_N z') in
  (forall n, (lo <= n < 24)%N -> N.testbit v n = N.testbit v' n) ->
  ((lo <= 16)%N -> x = x') /\ ((lo <= 8)%N -> y = y') /\ (lo = 0%N -> z = z').
Proof.
  intros v v' H. repeat split; intros Hlo; apply to_N_inj; intros m Hm.
  - specialize (H (m + 16)%N ltac:(lia)). unfold v, v' in H.
    rewrite !group_bit in H.
    destruct (N.leb_spec 16 (m + 16)); [|lia].
    by replace (m + 16 - 16)%N with m in H by lia.
  - specialize (H (m + 8)%N ltac:(lia)). unfold v, v' in H.
    rewrite !group_bit in H.
    destruct (N.leb_spec 16 (m + 8)); [lia|].
    destruct (N.leb_spec 8 (m + 8)); [|lia].
    by replace (m + 8 - 8)%N with m in H by lia.
  - specialize (H m ltac:(lia)). unfold v, v' in H.
    rewrite !group_bit in H.
    destruct (N.leb_spec 16 m); [lia|].
    by destruct (N.leb_spec 8 m); [lia|].
Qed.

Lemma group_tail1 (x : byte) :
  N.shiftl (Byte.to_N x) 16
  = N.lor (N.lor (N.shiftl (Byte.to_N x) 16) (N.shiftl (Byte.to_N x00) 8))
          (Byte.to_N x00).
Proof. change (Byte.to_N x00) with 0%N. by rewrite N.shiftl_0_l, !N.lor_0_r. Qed.

Lemma group_tail2 (x y : byte) :
  N.lor (N.shiftl (Byte.to_N x) 16) (N.shiftl (Byte.to_N y) 8)
  = N.lor (N.lor (N.shiftl (Byte.to_N x) 16) (N.shiftl (Byte.to_N y) 8))
          (Byte.to_N x00).
Proof. change (Byte.to_N x00) with 0%N. by rewrite N.lor_0_r. Qed.

Lemma EncodeToString_inj (src src' : bytes) :
  base64.EncodeToString src = base64.EncodeToString src' -> src = src'.
Proof.
  revert src'.
  induction src as [|a|a b|a b c l IH] using list_ind3;
    intros [|a' [|b' [|c' l']]]; cbn [base64.EncodeToString]; cbv zeta;
    intros E; try discriminate E; try reflexivity.
  - injection E as E18 E12. rewrite (group_tail1 a), (group_tail1 a') in E18, E12.
    destruct (group_inj a x00 x00 a' x00 x00 12) as (Ha & _).
    { intros n Hn. destruct (N.lt_ge_cases n 18).
      - apply (group_sextet _ _ _ _ _ _ 12 n); [done|lia].
      - apply (group_sextet _ _ _ _ _ _ 18 n); [done|lia]. }
    by rewrite Ha.
  - injection E as E18 E12 E6.
    rewrite (group_tail2 a b), (group_tail2 a' b') in E18, E12, E6.
    destruct (group_inj a b x00 a' b' x00 6) as (Ha & Hb & _).
    { intros n Hn. destruct (N.lt_ge_cases n 12); [|destruct (N.lt_ge_cases n 18)].
      - apply (group_sextet _ _ _ _ _ _ 6 n); [done|lia].
      - apply (group_sextet _ _ _ _ _ _ 12 n); [done|lia].
      - apply (group_sextet _ _ _ _ _ _ 18 n); [done|lia]. }
    by rewrite Ha, Hb.
  - injection E as E18 E12 E6 E0 Erest.
    destruct (group_inj a b c a' b' c' 0) as (Ha & Hb & Hc).
    { intros n Hn. destruct (N.lt_ge_cases n 6);
        [|destruct (N.lt_ge_cases n 12); [|destruct (N.lt_ge_cases n 18)]].
      - apply (group_sextet _ _ _ _ _ _ 0 n); [|lia].
        by rewrite !N.shiftr_0_r.
      - apply (group_sextet _ _ _ _ _ _ 6 n); [done|lia].
      - apply (group_sextet _ _ _ _ _ _ 12 n); [done|lia].
      - apply (group_sextet _ _ _ _ _ _ 18 n); [done|lia]. }
    rewrite Ha, Hb, Hc, (IH l') by done. reflexivity.
Qed.

Lemma string_app_inj_l (p a b : string) : p +:+ a = p +:+ b -> a = b.
Proof. induction p as [|c p IH]; cbn; [done|]. intros [= E]. by apply IH. Qed.

Lemma string_app_inj_length (a a' b b' : string) :
  String.length a = String.length a' -> a +:+ b = a' +:+ b' -> a = a'.
Proof.
  revert a'. induction a as [|c a IH]; intros [|c' a']; cbn; try done.
  intros [= Hlen] [= -> E]. f_equal. by apply IH.
Qed.

(** X30: requests whose 32 random bytes differ get different tokens, and
    so different storage keys and file names under the same directory and
    extension: the encoding of the random block loses nothing. *)
Theorem distinct_blocks_distinct_names env env' :
  take 32 (fst (rand_Read env) ++ replicate 32 x00)
  <> take 32 (fst (rand_Read env') ++ replicate 32 x00) ->
  tokenOf env <> tokenOf env' /\
  forall dir ext,
    dir +:+ "/" +:+ tokenOf env +:+ ext <> dir +:+ "/" +:+ tokenOf env' +:+ ext.
Proof.
  intros Hne.
  assert (tokenOf env <> tokenOf env') as Htok.
  { intros E. apply Hne. by apply EncodeToString_inj. }
  split; [exact Htok|]. intros dir ext E. apply Htok.
  apply string_app_inj_l, string_app_inj_l in E.
  apply string_app_inj_length in E; [exact E|].
  by rewrite !tokenOf_length.
Qed.

Lemma distinct_blocks_distinct_names_witness :
  tokenOf (Sample.request "alice" Sample.mp4 Sample.faststart)
  <> tokenOf {| s3Bucket := "tubely"; s3Region := "us-east-2";
                assetsRoot := "assets"; port := "8091";
                uuid_Parse := (ID Sample.video, None);
                auth_GetBearerToken := ("token", None);
                auth_ValidateJWT := fun _ => ("alice", None);
                r_ParseMultipartForm := None;
                r_FormFile := inl Sample.mp4;
                mime_ParseMediaType := mime.ParseMediaType;
                os_CreateTemp := ("/tmp/tubely-upload-2.mp4", None);
                os_Create := None;
                io_Copy := None;
                tempFile_Seek := None;
                exec_ffmpeg := Sample.faststart;
                exec_ffprobe := fun _ => Unmarshalled Sample.stream1080p;
                rand_Read := (replicate 32 x01, None);
                s3Client_PutObject := None;
                db_UpdateVideo := None |}.
Proof.
  apply distinct_blocks_distinct_names. vm_compute. discriminate.
Defined.
